(** * Order-book normalisation and execution simulation

    A shallow embedding of the order-book utilities of the viewer
    ([calculateTotals], [processOKXData], [processBybitData],
    [calculateOrderMetrics], [generateDepthChartData]) together with the
    properties stated about them.

    JavaScript numbers are IEEE-754 binary64 values.  They are modelled by
    [spec_float] of the Standard Library with [prec = 53] and [emax = 1024];
    every arithmetic operator of the source is the correspondingly rounded
    operation on that type, so [NaN], the infinities, the two zeros and the
    rounding of each operation are those of the running program. *)

From Stdlib Require Import ZArith List Bool String Ascii Lia Permutation Sorted.
From Stdlib Require Import SpecFloat.
Import ListNotations.

Local Open Scope Z_scope.

(** ** JavaScript numbers *)

Module JS.

Definition prec : Z := 53.
Definition emax : Z := 1024.

Definition number : Type := spec_float.

Definition NaN : number := S754_nan.
Definition Infinity : number := S754_infinity false.
Definition zero : number := S754_zero false.

(** The number denoted by an integer literal of the source. *)
Definition lit (z : Z) : number := binary_normalize prec emax z 0 false.

Definition add (x y : number) : number := SFadd prec emax x y.
Definition sub (x y : number) : number := SFsub prec emax x y.
Definition mul (x y : number) : number := SFmul prec emax x y.
Definition div (x y : number) : number := SFdiv prec emax x y.

(** Relational operators: a comparison with [NaN] is false. *)
Definition ltb (x y : number) : bool := SFltb x y.
Definition leb (x y : number) : bool := SFleb x y.
Definition gtb (x y : number) : bool := SFltb y x.
Definition geb (x y : number) : bool := SFleb y x.

(** [ToBoolean] on numbers: [+0], [-0] and [NaN] are falsy. *)
Definition truthy (x : number) : bool :=
  match x with
  | S754_zero _ | S754_nan => false
  | _ => true
  end.

(** [a || b] on numbers. *)
Definition or (a b : number) : number := if truthy a then a else b.

(** [Math.abs]. *)
Definition Math_abs (x : number) : number := SFabs x.

(** [Math.min] of two arguments: [NaN] if either is [NaN], and [-0] is
    smaller than [+0]. *)
Definition Math_min (x y : number) : number :=
  match SFcompare x y with
  | None => NaN
  | Some Lt => x
  | Some Gt => y
  | Some Eq =>
      match x, y with
      | S754_zero false, S754_zero true => y
      | _, _ => x
      end
  end.

(** A finite number, zero included. *)
Definition is_finite (x : number) : bool :=
  match x with
  | S754_zero _ | S754_finite _ _ _ => true
  | _ => false
  end.

(** A number as the machine stores it: the mantissa of a finite value is in
    canonical form (every double is; the carrier type also has other
    mantissa/exponent pairs). *)
Definition wf (x : number) : bool := valid_binary prec emax x.

(** [0 <= x]. *)
Definition nonneg (x : number) : bool := SFleb zero x.

Definition nonnan (x : number) : bool :=
  match x with
  | S754_nan => false
  | _ => true
  end.

(** *** [parseFloat]

    [parseFloat] is a builtin of the language.  It skips leading white space,
    reads the longest prefix that is a [StrDecimalLiteral] (sign,
    [Infinity], digits, fraction, exponent), and returns the double nearest
    to the decimal value read; [NaN] when no prefix is a literal.  Strings
    are sequences of code units below 256. *)

Definition code (c : ascii) : Z := Z.of_N (N_of_ascii c).

Definition isWhiteSpace (c : ascii) : bool :=
  let n := code c in
  ((9 <=? n) && (n <=? 13)) || (n =? 32) || (n =? 160).

Fixpoint trimStart (s : string) : string :=
  match s with
  | String c r => if isWhiteSpace c then trimStart r else s
  | EmptyString => s
  end.

Definition digitVal (c : ascii) : option Z :=
  let n := code c in
  if (48 <=? n) && (n <=? 57) then Some (n - 48) else None.

(** Reads [DecimalDigits]: the value accumulated onto [acc], the number of
    digits read added to [n], and the rest of the input. *)
Fixpoint readDigits (s : string) (acc n : Z) : Z * Z * string :=
  match s with
  | String c r =>
      match digitVal c with
      | Some d => readDigits r (10 * acc + d) (n + 1)
      | None => (acc, n, s)
      end
  | EmptyString => (acc, n, s)
  end.

(** Reads an optional [ExponentPart]; 0 when there is none. *)
Definition readExponent (s : string) : Z :=
  match s with
  | String c r =>
      if (code c =? 101) || (code c =? 69) then
        match r with
        | String sg r' =>
            if code sg =? 43 then
              let '(v, n, _) := readDigits r' 0 0 in if 0 <? n then v else 0
            else if code sg =? 45 then
              let '(v, n, _) := readDigits r' 0 0 in if 0 <? n then - v else 0
            else
              let '(v, n, _) := readDigits r 0 0 in if 0 <? n then v else 0
        | EmptyString => 0
        end
      else 0
  | EmptyString => 0
  end.

(** The double nearest to [m * 10^e10] (ties to even), with sign [sg]. *)
Definition ofDecimal (sg : bool) (m e10 : Z) : number :=
  match m with
  | Zpos p =>
      if 0 <=? e10 then
        binary_round prec emax sg (p * Z.to_pos (10 ^ e10)) 0
      else
        let '(q, e, l) := SFdiv_core_binary prec emax m 0 (10 ^ (- e10)) 0 in
        binary_round_aux prec emax sg q e l
  | _ => S754_zero sg
  end.

Definition readUnsigned (sg : bool) (s : string) : number :=
  if prefix "Infinity" s then S754_infinity sg
  else
    let '(i, ni, r1) := readDigits s 0 0 in
    match r1 with
    | String c r1' =>
        if code c =? 46 then
          let '(f, nf, r2) := readDigits r1' i 0 in
          if 0 <? ni + nf then ofDecimal sg f (readExponent r2 - nf)
          else NaN
        else if 0 <? ni then ofDecimal sg i (readExponent r1)
        else NaN
    | EmptyString => if 0 <? ni then ofDecimal sg i 0 else NaN
    end.

Definition parseFloat (s : string) : number :=
  match trimStart s with
  | String c r =>
      if code c =? 43 then readUnsigned false r
      else if code c =? 45 then readUnsigned true r
      else readUnsigned false (String c r)
  | EmptyString => NaN
  end.

End JS.

Declare Scope js_scope.
Delimit Scope js_scope with js.
Infix "+" := JS.add : js_scope.
Infix "-" := JS.sub : js_scope.
Infix "*" := JS.mul : js_scope.
Infix "/" := JS.div : js_scope.
Infix "<=?" := JS.leb : js_scope.
Infix "<?" := JS.ltb : js_scope.
Infix ">=?" := JS.geb : js_scope.
Infix ">?" := JS.gtb : js_scope.
Infix "||" := JS.or : js_scope.

Local Open Scope string_scope.

(** ** Data model ([types.tsx]) *)

Record OrderLevel := mkLevel {
  price : JS.number;
  size : JS.number;
  total : JS.number
}.

(** [timestamp: number | string] *)
Inductive Timestamp :=
| TsString (s : string)
| TsNumber (n : JS.number).

Record OrderbookData := mkBook {
  bids : list OrderLevel;
  asks : list OrderLevel;
  timestamp : Timestamp
}.

Inductive OrderType := market | limit.
Inductive Side := buy | sell.

(** The fields of [OrderForm] that the simulator reads; [venue], [symbol]
    and [timing] are never inspected by it. *)
Record OrderForm := mkOrder {
  orderType : OrderType;
  side : Side;
  order_price : string;
  order_quantity : string
}.

Record OrderMetrics := mkMetrics {
  fillPercentage : JS.number;
  averageFillPrice : JS.number;
  slippage : JS.number;
  marketImpact : JS.number;
  estimatedCost : JS.number
}.

Record DepthChartData := mkPoint {
  point_price : JS.number;
  bidTotal : JS.number;
  askTotal : JS.number
}.

(** Raw venue levels: [[string, string][]]. *)
Definition RawLevel : Type := string * string.

Record OKXBook := mkOKX {
  okx_bids : list RawLevel;
  okx_asks : list RawLevel;
  okx_ts : string
}.

Record BybitBook := mkBybit {
  bybit_b : list RawLevel;
  bybit_a : list RawLevel;
  bybit_u : string
}.

(** ** Book builder

    [processOKXData] and [processBybitData] parse the raw pairs and hand the
    levels to [calculateTotals]; the single-file version of the page inlines
    the same two steps.  [processDeribitData] differs only in that its raw
    pairs hold numbers, which it prints and parses back; it is not modelled,
    and what is proved of [calculateTotals] covers the books it builds. *)

(** The callback of [bids.map(...)] in [calculateTotals], with the running
    variable [bidTotal] (resp. [askTotal]) threaded through the traversal. *)
Fixpoint withTotals (running : JS.number) (levels : list OrderLevel)
  : list OrderLevel :=
  match levels with
  | [] => []
  | l :: rest =>
      let running' := (running + size l)%js in
      mkLevel (price l) (size l) running' :: withTotals running' rest
  end.

Definition calculateTotals (orderbook : OrderbookData) : OrderbookData :=
  mkBook (withTotals JS.zero (bids orderbook))
         (withTotals JS.zero (asks orderbook))
         (timestamp orderbook).

(** [([price, size]) => ({ price: parseFloat(price), size: parseFloat(size),
    total: 0 })] *)
Definition parseLevel (raw : RawLevel) : OrderLevel :=
  mkLevel (JS.parseFloat (fst raw)) (JS.parseFloat (snd raw)) JS.zero.

Definition processOKXData (orderbook : OKXBook) : OrderbookData :=
  calculateTotals
    (mkBook (map parseLevel (okx_bids orderbook))
            (map parseLevel (okx_asks orderbook))
            (TsString (okx_ts orderbook))).

Definition processBybitData (data : BybitBook) : OrderbookData :=
  calculateTotals
    (mkBook (map parseLevel (bybit_b data))
            (map parseLevel (bybit_a data))
            (TsString (bybit_u data))).

(** ** Execution simulator *)

(** The [let] variables of [calculateOrderMetrics]. *)
Module Var.
Record t := mk {
  fillPercentage : JS.number;
  averageFillPrice : JS.number;
  slippage : JS.number;
  marketImpact : JS.number;
  remainingQuantity : JS.number;
  totalCost : JS.number;
  weightedPriceSum : JS.number;
  filledQuantity : JS.number
}.
End Var.

(** Their initial values: all [0], except [remainingQuantity = quantity]. *)
Definition initVars (quantity : JS.number) : Var.t :=
  Var.mk JS.zero JS.zero JS.zero JS.zero quantity JS.zero JS.zero JS.zero.

(** [const levels = side === 'buy' ? orderbook.asks : orderbook.bids] *)
Definition levelsFor (orderbook : OrderbookData) (sd : Side)
  : list OrderLevel :=
  match sd with
  | buy => asks orderbook
  | sell => bids orderbook
  end.

(** [for (const level of levels) { if (remainingQuantity <= 0) break; ... }] *)
Fixpoint marketLoop (levels : list OrderLevel) (v : Var.t) : Var.t :=
  match levels with
  | [] => v
  | level :: rest =>
      if (Var.remainingQuantity v <=? JS.zero)%js then v
      else
        let fillQty := JS.Math_min (Var.remainingQuantity v) (size level) in
        marketLoop rest
          (Var.mk (Var.fillPercentage v) (Var.averageFillPrice v)
                  (Var.slippage v) (Var.marketImpact v)
                  (Var.remainingQuantity v - fillQty)%js
                  (Var.totalCost v + fillQty * price level)%js
                  (Var.weightedPriceSum v + fillQty * price level)%js
                  (Var.filledQuantity v + fillQty)%js)
  end.

(** [levels[0]?.price || 0] and [levels[0]?.total || 1]: on an empty array
    the optional chain is [undefined], which is falsy. *)
Definition firstPriceOr (levels : list OrderLevel) (d : JS.number)
  : JS.number :=
  match levels with
  | [] => d
  | l :: _ => (price l || d)%js
  end.

Definition firstTotalOr (levels : list OrderLevel) (d : JS.number)
  : JS.number :=
  match levels with
  | [] => d
  | l :: _ => (total l || d)%js
  end.

(** The body of [if (order.orderType === 'market') { ... }]. *)
Definition marketBranch (levels : list OrderLevel) (quantity : JS.number)
  (v0 : Var.t) : Var.t :=
  let v := marketLoop levels v0 in
  if (Var.filledQuantity v >? JS.zero)%js then
    let averageFillPrice :=
      (Var.weightedPriceSum v / Var.filledQuantity v)%js in
    let fillPercentage := (Var.filledQuantity v / quantity * JS.lit 100)%js in
    let bestPrice := firstPriceOr levels JS.zero in
    let slippage :=
      (JS.Math_abs ((averageFillPrice - bestPrice) / bestPrice)
       * JS.lit 100)%js in
    let marketImpact :=
      (Var.filledQuantity v / firstTotalOr levels (JS.lit 1) * JS.lit 100)%js in
    Var.mk fillPercentage averageFillPrice slippage marketImpact
           (Var.remainingQuantity v) (Var.totalCost v)
           (Var.weightedPriceSum v) (Var.filledQuantity v)
  else v.

(** The predicate of [levels.findIndex(...)] in the limit branch. *)
Definition crosses (sd : Side) (limitPrice : JS.number) (level : OrderLevel)
  : bool :=
  match sd with
  | buy => (price level <=? limitPrice)%js
  | sell => (price level >=? limitPrice)%js
  end.

(** [Array.prototype.findIndex], with [None] for [-1]. *)
Fixpoint findIndex {A : Type} (p : A -> bool) (l : list A) : option nat :=
  match l with
  | [] => None
  | x :: r => if p x then Some O else option_map S (findIndex p r)
  end.

(** The body of the [else] branch (limit orders). *)
Definition limitBranch (levels : list OrderLevel) (sd : Side)
  (price quantity : JS.number) (v : Var.t) : Var.t :=
  match findIndex (crosses sd price) levels with
  | Some _ =>
      Var.mk (JS.lit 100) price (Var.slippage v)
             (quantity / firstTotalOr levels (JS.lit 1) * JS.lit 100)%js
             (Var.remainingQuantity v) (Var.totalCost v)
             (Var.weightedPriceSum v) (Var.filledQuantity v)
  | None => v
  end.

(** The empty string is the only falsy string. *)
Definition falsyString (s : string) : bool :=
  match s with
  | EmptyString => true
  | _ => false
  end.

(** [calculateOrderMetrics].  The book argument is an object, hence truthy:
    the disjunct [!orderbook] of the guard is false. *)
Definition calculateOrderMetrics (orderbook : OrderbookData) (order : OrderForm)
  : option OrderMetrics :=
  if falsyString (order_price order) || falsyString (order_quantity order)
  then None
  else
    let price := JS.parseFloat (order_price order) in
    let quantity := JS.parseFloat (order_quantity order) in
    let levels := levelsFor orderbook (side order) in
    let v :=
      match orderType order with
      | market => marketBranch levels quantity (initVars quantity)
      | limit =>
          limitBranch levels (side order) price quantity (initVars quantity)
      end in
    Some (mkMetrics (JS.Math_min (Var.fillPercentage v) (JS.lit 100))
                    (Var.averageFillPrice v)
                    (Var.slippage v)
                    (Var.marketImpact v)
                    (Var.totalCost v || price * quantity)%js).

(** ** Depth projector *)

Definition bidPoint (bid : OrderLevel) : DepthChartData :=
  mkPoint (price bid) (total bid) JS.zero.

Definition askPoint (ask : OrderLevel) : DepthChartData :=
  mkPoint (price ask) JS.zero (total ask).

(** The comparator [(a, b) => a.price - b.price]. *)
Definition byPrice (a b : DepthChartData) : JS.number :=
  (point_price a - point_price b)%js.

(** [Array.prototype.sort] with a comparator.  The language fixes the result
    for a consistent comparator: the stable arrangement in which [a] stays
    before [b] unless the comparator is positive on them (a [NaN] result
    counts as [+0]).  Stable insertion computes that arrangement. *)
Fixpoint insertBy {A : Type} (cmp : A -> A -> JS.number) (x : A) (l : list A)
  : list A :=
  match l with
  | [] => [x]
  | y :: r =>
      if (cmp x y >? JS.zero)%js then y :: insertBy cmp x r
      else x :: l
  end.

Definition sortBy {A : Type} (cmp : A -> A -> JS.number) (l : list A)
  : list A :=
  fold_right (insertBy cmp) [] l.

Definition generateDepthChartData (orderbook : OrderbookData)
  : list DepthChartData :=
  let bidsData := map bidPoint (bids orderbook) in
  let asksData := map askPoint (asks orderbook) in
  sortBy byPrice (rev bidsData ++ asksData).

(** ** Order-book table ([OrderbookViewer])

    The rows of the two columns: [orderbook.asks.slice(0, 20).reverse()] and
    [orderbook.bids.slice(0, 20)]. *)

Definition displayedAsks (orderbook : OrderbookData) : list OrderLevel :=
  rev (firstn 20 (asks orderbook)).

Definition displayedBids (orderbook : OrderbookData) : list OrderLevel :=
  firstn 20 (bids orderbook).

(** ** Update throttling

    Times are the integer millisecond counts returned by [Date.now()]; on
    them the double arithmetic of the source is exact, and they are modelled
    by [Z]. *)

(** *** The gate of the [onmessage] handler of the single-file page

    [if (now - lastUpdateTime.current < UPDATE_THROTTLE) return;
     lastUpdateTime.current = now;]
    The reference [lastUpdateTime] is shared by the handlers of all venues
    and starts at [0]. *)

Definition UPDATE_THROTTLE : Z := 100.

(** Whether the message arriving at [now] is processed, and the new value of
    [lastUpdateTime.current]. *)
Definition messageGate (lastUpdateTime now : Z) : bool * Z :=
  if (now - lastUpdateTime <? UPDATE_THROTTLE)%Z then (false, lastUpdateTime)
  else (true, now).

(** The arrival times of the messages that get processed, among the
    arrivals given in order. *)
Fixpoint processedAt (lastUpdateTime : Z) (arrivals : list Z) : list Z :=
  match arrivals with
  | [] => []
  | now :: later =>
      let '(processed, lastUpdateTime') := messageGate lastUpdateTime now in
      if processed then now :: processedAt lastUpdateTime' later
      else processedAt lastUpdateTime' later
  end.

(** *** [throttle]

    The closure returned by [throttle(func, limit)] owns two variables:
    [lastRan] (initially [undefined]) and the timer [lastFunc].  At most one
    timer is pending, since every call clears the previous one before it sets
    its own.  The closure is driven by two kinds of events: a call, and the
    expiry of the pending timer; each event carries the value [Date.now()]
    has while it is handled.  The wrapped function is taken to return
    normally, as the one the page wraps does. *)

Module Throttle.

Record State (Args : Type) := mkState {
  lastRan : option Z;
  (** the pending timer: the time it is due and the arguments it captured *)
  lastFunc : option (Z * Args)
}.
Arguments mkState {Args}.
Arguments lastRan {Args}.
Arguments lastFunc {Args}.

Inductive Event (Args : Type) :=
| Call (now : Z) (args : Args)
| Expire (now : Z).
Arguments Call {Args}.
Arguments Expire {Args}.

Definition initial {Args : Type} : State Args := mkState None None.

(** [!lastRan]: [undefined] and [0] are falsy. *)
Definition notRan (lastRan : option Z) : bool :=
  match lastRan with
  | None => true
  | Some t => (t =? 0)%Z
  end.

(** One event: the new state and the invocations [func.apply(this, args)] it
    performs, each with the time at which it happens.  A timer does not
    expire before it is due. *)
Definition step {Args : Type} (limit : Z) (st : State Args) (ev : Event Args)
  : State Args * list (Z * Args) :=
  match ev with
  | Call now args =>
      match lastRan st with
      | Some ran =>
          if (ran =? 0)%Z then (mkState (Some now) (lastFunc st), [(now, args)])
          else (mkState (lastRan st)
                        (Some (now + (limit - (now - ran)), args))%Z, [])
      | None => (mkState (Some now) (lastFunc st), [(now, args)])
      end
  | Expire now =>
      match lastFunc st with
      | Some (due, args) =>
          if (now <? due)%Z then (st, [])
          else
            match lastRan st with
            | Some ran =>
                if (now - ran >=? limit)%Z
                then (mkState (Some now) None, [(now, args)])
                else (mkState (lastRan st) None, [])
            | None => (mkState None None, [])
            end
      | None => (st, [])
      end
  end.

(** A sequence of events: the final state and all the invocations, in order. *)
Fixpoint run {Args : Type} (limit : Z) (st : State Args)
  (evs : list (Event Args)) : State Args * list (Z * Args) :=
  match evs with
  | [] => (st, [])
  | ev :: rest =>
      let '(st1, out1) := step limit st ev in
      let '(st2, out2) := run limit st1 rest in
      (st2, (out1 ++ out2)%list)
  end.

Definition time {Args : Type} (ev : Event Args) : Z :=
  match ev with
  | Call now _ => now
  | Expire now => now
  end.

(** Two times at least [limit] apart. *)
Definition spaced (limit : Z) (a b : Z) : Prop := (limit <= b - a)%Z.

End Throttle.

(** ** The order form of the page *)

Inductive ExchangeKey := okx | bybit | deribit.

Definition DEFAULT_SYMBOLS (exchange : ExchangeKey) : string :=
  match exchange with
  | okx => "BTC-USDT"
  | bybit => "BTCUSDT"
  | deribit => "BTC-PERPETUAL"
  end.

(** The state [orderForm]; the [select] and [input] widgets supply strings,
    and the venue is one of the three keys offered. *)
Record FormState := mkForm {
  form_venue : ExchangeKey;
  form_symbol : string;
  form_orderType : string;
  form_side : string;
  form_price : string;
  form_quantity : string;
  form_timing : string
}.

(** The initial value given to [useState<OrderForm>]. *)
Definition initialOrderForm : FormState :=
  mkForm okx "BTC-USDT" "limit" "buy" "" "" "immediate".

(** The argument pair [(field, value)] of [handleOrderFormChange]. *)
Inductive FormChange :=
| SetVenue (value : ExchangeKey)
| SetSymbol (value : string)
| SetOrderType (value : string)
| SetSide (value : string)
| SetPrice (value : string)
| SetQuantity (value : string)
| SetTiming (value : string).

(** [const updated = { ...prev, [field]: value };
     if (field === 'venue') updated.symbol = DEFAULT_SYMBOLS[value];] *)
Definition handleOrderFormChange (prev : FormState) (change : FormChange)
  : FormState :=
  match change with
  | SetVenue v =>
      mkForm v (DEFAULT_SYMBOLS v) (form_orderType prev) (form_side prev)
             (form_price prev) (form_quantity prev) (form_timing prev)
  | SetSymbol s =>
      mkForm (form_venue prev) s (form_orderType prev) (form_side prev)
             (form_price prev) (form_quantity prev) (form_timing prev)
  | SetOrderType s =>
      mkForm (form_venue prev) (form_symbol prev) s (form_side prev)
             (form_price prev) (form_quantity prev) (form_timing prev)
  | SetSide s =>
      mkForm (form_venue prev) (form_symbol prev) (form_orderType prev) s
             (form_price prev) (form_quantity prev) (form_timing prev)
  | SetPrice s =>
      mkForm (form_venue prev) (form_symbol prev) (form_orderType prev)
             (form_side prev) s (form_quantity prev) (form_timing prev)
  | SetQuantity s =>
      mkForm (form_venue prev) (form_symbol prev) (form_orderType prev)
             (form_side prev) (form_price prev) s (form_timing prev)
  | SetTiming s =>
      mkForm (form_venue prev) (form_symbol prev) (form_orderType prev)
             (form_side prev) (form_price prev) (form_quantity prev) s
  end.

(** The request that [calculateOrderMetrics] reads in the form: it compares
    [orderType] with ['market'] and [side] with ['buy'] only. *)
Definition formOrder (form : FormState) : OrderForm :=
  mkOrder (if String.eqb (form_orderType form) "market" then market else limit)
          (if String.eqb (form_side form) "buy" then buy else sell)
          (form_price form) (form_quantity form).

(** [simulateOrder]: the new value of the state [orderMetrics], given the
    book of the form's venue ([None] when there is none yet: the function
    then alerts and returns, leaving the state as it was). *)
Definition simulateOrder (orderbook : option OrderbookData) (form : FormState)
  (orderMetrics : option OrderMetrics) : option OrderMetrics :=
  match orderbook with
  | None => orderMetrics
  | Some book => calculateOrderMetrics book (formOrder form)
  end.

(** ** Auxiliary definitions for the statements *)

(** A level whose three fields are the integer literals given. *)
Definition levelOf (p s t : Z) : OrderLevel :=
  mkLevel (JS.lit p) (JS.lit s) (JS.lit t).

(** The price and the size of a level, and those parsed from a raw pair. *)
Definition priceSize (l : OrderLevel) : JS.number * JS.number :=
  (price l, size l).

Definition parsedPair (raw : RawLevel) : JS.number * JS.number :=
  (JS.parseFloat (fst raw), JS.parseFloat (snd raw)).

(** One step of a running sum of sizes. *)
Definition addSize (acc : JS.number) (l : OrderLevel) : JS.number :=
  (acc + size l)%js.

(** [size[0] + size[1] + ...], evaluated left to right from [0] in double
    arithmetic. *)
Definition sumSizes (levels : list OrderLevel) : JS.number :=
  fold_left addSize levels JS.zero.

(** A size that is a finite, non-negative double. *)
Definition sizeOk (l : OrderLevel) : bool :=
  JS.wf (size l) && JS.is_finite (size l) && JS.nonneg (size l).

(** A price that is a double other than [NaN]. *)
Definition priceOk (l : OrderLevel) : bool :=
  JS.wf (price l) && JS.nonnan (price l).

(** [a <= b] on numbers, as a proposition. *)
Definition num_le (a b : JS.number) : Prop := JS.leb a b = true.

(** Ascending by price. *)
Definition pointLe (a b : DepthChartData) : Prop :=
  num_le (point_price a) (point_price b).

(** A point whose price is a double other than [NaN]. *)
Definition pointOk (a : DepthChartData) : Prop :=
  JS.wf (point_price a) = true /\ JS.nonnan (point_price a) = true.

(** The request [order] with its price string replaced. *)
Definition withPrice (order : OrderForm) (p : string) : OrderForm :=
  mkOrder (orderType order) (side order) p (order_quantity order).

(** What is stated of the cumulative totals [out] computed for the side
    [src]: they never decrease along the side, the one at index [i] is the
    sum of the sizes at indices [0..=i], and the last one is the sum of all
    the sizes. *)
Definition cumulative (src out : list OrderLevel) : Prop :=
  StronglySorted num_le (map total out)
  /\ List.length out = List.length src
  /\ (forall i, (i < List.length src)%nat ->
       nth_error (map total out) i = Some (sumSizes (firstn (S i) src)))
  /\ last (map total out) JS.zero = sumSizes src.

(** ** Facts about double arithmetic *)

Module NumberFacts.
Import JS.
Local Open Scope Z_scope.

(** *** Digits and shifts *)

Lemma fexp_eq e : fexp prec emax e = Z.max (e - 53) (-1074).
Proof. reflexivity. Qed.

(** [digits2_pos p] is the number of bits of [p]. *)
Lemma digits_spec p :
  2 ^ (Zpos (digits2_pos p) - 1) <= Zpos p < 2 ^ Zpos (digits2_pos p).
Proof.
  induction p as [p IH | p IH |]; cbn [digits2_pos]; [| | cbn; lia];
    rewrite Pos2Z.inj_succ;
    pose proof (Pos2Z.is_pos (digits2_pos p)) as Hd;
    generalize dependent (Zpos (digits2_pos p)); intros d IH Hd;
    replace (Z.succ d - 1) with (Z.succ (d - 1)) by lia;
    rewrite !Z.pow_succ_r by lia;
    generalize dependent (2 ^ (d - 1)); generalize dependent (2 ^ d);
    intros; lia.
Qed.

Lemma digits_unique p d :
  2 ^ (d - 1) <= Zpos p < 2 ^ d -> Zpos (digits2_pos p) = d.
Proof.
  intros [Hl Hu]. pose proof (digits_spec p) as [Hl' Hu'].
  assert (0 < d).
  { destruct (Z.ltb_spec 0 d); [assumption|].
    rewrite (Z.pow_neg_r 2 (d - 1)) in Hl by lia.
    destruct (Z.eq_dec d 0) as [->|]; [cbn in Hu; lia|].
    rewrite Z.pow_neg_r in Hu by lia. lia. }
  set (k := Zpos (digits2_pos p)) in *.
  destruct (Z.lt_trichotomy k d) as [Hlt | [Heq | Hgt]]; [|assumption|].
  - assert (2 ^ k <= 2 ^ (d - 1)) by (apply Z.pow_le_mono_r; lia). lia.
  - assert (2 ^ d <= 2 ^ (k - 1)) by (apply Z.pow_le_mono_r; lia). lia.
Qed.

(** A right shift by [n] bits divides the mantissa by [2 ^ n]. *)
Lemma shr_1_m r : 0 <= shr_m r -> shr_m (shr_1 r) = shr_m r / 2.
Proof.
  destruct r as [m r s]. cbn [shr_m]. intros Hm.
  destruct m as [|[p|p|]|p]; cbn [shr_1 shr_m]; try lia; try reflexivity.
  - apply Z.div_unique with 1; lia.
  - apply Z.div_unique with 0; lia.
Qed.

Lemma iter_shr_1_m p : forall r,
  0 <= shr_m r -> shr_m (iter_pos shr_1 p r) = shr_m r / 2 ^ Zpos p.
Proof.
  assert (Hnn : forall r, 0 <= shr_m r -> 0 <= shr_m (shr_1 r)).
  { intros r Hr. rewrite shr_1_m by assumption. apply Z.div_pos; lia. }
  induction p as [p IH | p IH |]; intros r Hr; cbn [iter_pos].
  - assert (H1 := Hnn r Hr).
    assert (H2 : 0 <= shr_m (iter_pos shr_1 p (shr_1 r))).
    { rewrite IH by assumption. apply Z.div_pos; [assumption|].
      apply Z.pow_pos_nonneg; lia. }
    rewrite IH by assumption. rewrite IH by assumption.
    rewrite shr_1_m by assumption.
    rewrite !Z.div_div by (try apply Z.pow_pos_nonneg; lia).
    f_equal.
    replace (Zpos p~1) with (1 + Zpos p + Zpos p) by lia.
    rewrite !Z.pow_add_r by lia. lia.
  - assert (H2 : 0 <= shr_m (iter_pos shr_1 p r)).
    { rewrite IH by assumption. apply Z.div_pos; [assumption|].
      apply Z.pow_pos_nonneg; lia. }
    rewrite IH by assumption. rewrite IH by assumption.
    rewrite !Z.div_div by (try apply Z.pow_pos_nonneg; lia).
    f_equal.
    replace (Zpos p~0) with (Zpos p + Zpos p) by lia.
    rewrite !Z.pow_add_r by lia. lia.
  - rewrite shr_1_m by assumption. reflexivity.
Qed.

Lemma shr_spec r e n :
  0 <= shr_m r -> 0 <= n ->
  shr_m (fst (shr r e n)) = shr_m r / 2 ^ n /\ snd (shr r e n) = e + n.
Proof.
  intros Hr Hn. destruct n as [|p|p]; cbn [shr fst snd]; try lia.
  - rewrite Z.pow_0_r, Z.div_1_r. lia.
  - rewrite iter_shr_1_m by assumption. lia.
Qed.

Lemma shr_record_of_loc_m m l : shr_m (shr_record_of_loc m l) = m.
Proof. destruct l as [|[]]; reflexivity. Qed.

Lemma round_nearest_even_bounds m l :
  m <= round_nearest_even m l <= m + 1.
Proof. destruct l as [|[]]; cbn; try destruct (Z.even m); lia. Qed.

Lemma Zdigits2_spec m :
  0 < m -> 0 < Zdigits2 m /\ 2 ^ (Zdigits2 m - 1) <= m < 2 ^ Zdigits2 m.
Proof.
  destruct m as [|p|p]; try lia. intros _. cbn [Zdigits2].
  split; [lia | apply digits_spec].
Qed.

Lemma Zdigits2_unique m k :
  2 ^ (k - 1) <= m < 2 ^ k -> 0 < m -> Zdigits2 m = k.
Proof.
  destruct m as [|p|p]; try lia. intros H _. now apply digits_unique.
Qed.

Lemma div_pow2_bounds m d n :
  0 <= n < d -> 2 ^ (d - 1) <= m < 2 ^ d ->
  2 ^ (d - n - 1) <= m / 2 ^ n < 2 ^ (d - n).
Proof.
  intros Hn [Hl Hu].
  assert (Hp : 0 < 2 ^ n) by (apply Z.pow_pos_nonneg; lia).
  split.
  - replace (d - n - 1) with (d - 1 - n) by lia.
    rewrite Z.pow_sub_r by lia. apply Z.div_le_mono; assumption.
  - apply Z.div_lt_upper_bound; [assumption|].
    rewrite <- Z.pow_add_r by lia. now replace (n + (d - n)) with d by lia.
Qed.

Lemma fexp_mono a b : a <= b -> fexp prec emax a <= fexp prec emax b.
Proof. rewrite !fexp_eq. lia. Qed.

(** *** Rounding *)

Lemma shr_fexp_spec m ex l :
  0 <= m -> ex <= fexp prec emax (Zdigits2 m + ex) ->
  shr_m (fst (shr_fexp prec emax m ex l))
    = m / 2 ^ (fexp prec emax (Zdigits2 m + ex) - ex)
  /\ snd (shr_fexp prec emax m ex l) = fexp prec emax (Zdigits2 m + ex).
Proof.
  intros Hm He. unfold shr_fexp.
  destruct (shr_spec (shr_record_of_loc m l) ex
              (fexp prec emax (Zdigits2 m + ex) - ex)) as [H1 H2].
  - now rewrite shr_record_of_loc_m.
  - lia.
  - rewrite H1, H2, shr_record_of_loc_m. split; [reflexivity | lia].
Qed.

(** Rounding a positive mantissa whose exponent is not above the target
    exponent: the result is a positive canonical float or overflows. *)
Lemma binary_round_aux_pos sx p ex l :
  let e1 := fexp prec emax (Zpos (digits2_pos p) + ex) in
  ex <= e1 -> -1074 < Zpos (digits2_pos p) + ex ->
  binary_round_aux prec emax sx (Zpos p) ex l = S754_infinity sx \/
  exists m2 e2,
    binary_round_aux prec emax sx (Zpos p) ex l = S754_finite sx m2 e2
    /\ bounded prec emax m2 e2 = true
    /\ e1 <= e2
    /\ (e2 = e1 -> Zpos p / 2 ^ (e1 - ex) <= Zpos m2).
Proof.
  intros e1 He Hmin. unfold binary_round_aux.
  destruct (shr_fexp_spec (Zpos p) ex l) as [Hm1 He1]; [lia | exact He |].
  destruct (shr_fexp prec emax (Zpos p) ex l) as [r1 e1'].
  cbn [fst snd] in Hm1, He1. cbn [Zdigits2] in Hm1, He1. fold e1 in Hm1, He1.
  subst e1'.
  pose proof (digits_spec p) as Hdp.
  assert (Hfx : forall k, fexp prec emax k = Z.max (k - 53) (-1074))
    by (intros; apply fexp_eq).
  assert (E1 : e1 = Z.max (Zpos (digits2_pos p) + ex - 53) (-1074))
    by apply fexp_eq.
  clearbody e1.
  remember (Zpos (digits2_pos p)) as d eqn:Ed.
  remember (e1 - ex) as n eqn:En.
  assert (Hn : 0 <= n < d) by lia.
  pose proof (div_pow2_bounds (Zpos p) d n Hn Hdp) as Hb1.
  rewrite <- Hm1 in Hb1.
  remember (shr_m r1) as m1 eqn:Em1.
  pose proof (round_nearest_even_bounds m1 (loc_of_shr_record r1)) as Hr.
  remember (round_nearest_even m1 (loc_of_shr_record r1)) as m1' eqn:Em1'.
  assert (Hd1 : d - n + e1 = d + ex) by lia.
  assert (Hpos1 : 0 < 2 ^ (d - n - 1)) by (apply Z.pow_pos_nonneg; lia).
  assert (Hpw : 2 ^ (d - n) = 2 * 2 ^ (d - n - 1)).
  { rewrite <- Z.pow_succ_r by lia. f_equal. lia. }
  assert (Hm1'pos : 0 < m1') by lia.
  assert (Hfe : fexp prec emax (d - n + e1) = e1) by (rewrite Hfx; lia).
  destruct (Z.eq_dec m1' (2 ^ (d - n))) as [Heq | Hne].
  - (* the rounded mantissa gained one digit *)
    assert (Hdig : Zdigits2 m1' = d - n + 1).
    { apply Zdigits2_unique; [|assumption].
      replace (d - n + 1 - 1) with (d - n) by lia.
      rewrite Heq. split; [lia|].
      replace (d - n + 1) with (Z.succ (d - n)) by lia.
      rewrite Z.pow_succ_r by lia. lia. }
    destruct (shr_fexp_spec m1' e1 loc_Exact) as [Hm2 He2]; [lia | | ].
    { rewrite Hdig, Hfx. lia. }
    destruct (shr_fexp prec emax m1' e1 loc_Exact) as [r2 e2].
    cbn [fst snd] in Hm2, He2. rewrite Hdig in Hm2, He2.
    rewrite <- He2 in Hm2. rewrite Hfx in He2.
    assert (Hk : e2 = e1 \/ (e2 = e1 + 1 /\ d - n = 53)) by lia.
    destruct Hk as [Hk | [Hk Hd53]].
    + rewrite Hk, Z.sub_diag, Z.pow_0_r, Z.div_1_r in Hm2.
      rewrite Hm2. destruct m1' as [|q|q]; try lia.
      destruct (Z.leb_spec e2 (emax - prec)); [right | now left].
      exists q, e2. split; [reflexivity|]. split; [|split; [lia|]].
      * unfold bounded, canonical_mantissa.
        change (Zpos (digits2_pos q)) with (Zdigits2 (Zpos q)).
        rewrite Hdig, Hfx.
        replace (Z.max (d - n + 1 + e2 - 53) (-1074)) with e2 by lia.
        rewrite Z.eqb_refl. cbn [andb]. now apply Z.leb_le.
      * intros _. lia.
    + rewrite Hk in Hm2.
      replace (e1 + 1 - e1) with 1 in Hm2 by lia.
      rewrite Heq, Hpw in Hm2. rewrite Z.pow_1_r in Hm2.
      rewrite Z.mul_comm, Z.div_mul in Hm2 by lia.
      rewrite Hm2.
      destruct (2 ^ (d - n - 1)) as [|q|q] eqn:Eq; try lia.
      destruct (Z.leb_spec e2 (emax - prec)); [right | now left].
      exists q, e2. split; [reflexivity|]. split; [|split; [lia|lia]].
      unfold bounded, canonical_mantissa.
      assert (Hdq : Zpos (digits2_pos q) = d - n).
      { apply digits_unique. rewrite <- Eq. rewrite Hpw. lia. }
      rewrite Hdq, Hfx.
      replace (Z.max (d - n + e2 - 53) (-1074)) with e2 by lia.
      rewrite Z.eqb_refl. cbn [andb]. now apply Z.leb_le.
  - (* same number of digits *)
    assert (Hdig : Zdigits2 m1' = d - n).
    { apply Zdigits2_unique; [|assumption]. lia. }
    destruct (shr_fexp_spec m1' e1 loc_Exact) as [Hm2 He2]; [lia | | ].
    { rewrite Hdig, Hfe. lia. }
    destruct (shr_fexp prec emax m1' e1 loc_Exact) as [r2 e2].
    cbn [fst snd] in Hm2, He2. rewrite Hdig, Hfe in Hm2, He2. subst e2.
    rewrite Z.sub_diag, Z.pow_0_r, Z.div_1_r in Hm2.
    rewrite Hm2. destruct m1' as [|q|q]; try lia.
    destruct (Z.leb_spec e1 (emax - prec)); [right | now left].
    exists q, e1. split; [reflexivity|]. split; [|split; [lia|]].
    + unfold bounded, canonical_mantissa.
      change (Zpos (digits2_pos q)) with (Zdigits2 (Zpos q)).
      rewrite Hdig, Hfe, Z.eqb_refl. cbn [andb]. now apply Z.leb_le.
    + intros _. lia.
Qed.

Lemma iter_xO p k : Zpos (Pos.iter xO p k) = Zpos p * 2 ^ Zpos k.
Proof.
  induction k as [|k IH] using Pos.peano_ind.
  - cbn. lia.
  - rewrite Pos.iter_succ, Pos2Z.inj_succ, Z.pow_succ_r by lia.
    change (Zpos (Pos.iter xO p k)~0) with (2 * Zpos (Pos.iter xO p k)).
    rewrite IH. lia.
Qed.

Lemma shl_align_spec mx ex ez :
  ez <= ex ->
  Zpos (fst (shl_align mx ex ez)) = Zpos mx * 2 ^ (ex - ez)
  /\ snd (shl_align mx ex ez) = ez.
Proof.
  intros H. unfold shl_align.
  destruct (ez - ex) as [|d|d] eqn:E; cbn [fst snd]; try lia.
  - replace (ex - ez) with 0 by lia. rewrite Z.pow_0_r. lia.
  - rewrite iter_xO. replace (ex - ez) with (Zpos d) by lia. lia.
Qed.

Lemma shl_align_id mx ex ez : ex <= ez -> shl_align mx ex ez = (mx, ex).
Proof.
  intros H. unfold shl_align. destruct (ez - ex) eqn:E; try reflexivity. lia.
Qed.

Lemma digits_shift p k :
  0 <= k -> forall q, Zpos q = Zpos p * 2 ^ k ->
  Zpos (digits2_pos q) = Zpos (digits2_pos p) + k.
Proof.
  intros Hk q Hq. apply digits_unique. rewrite Hq.
  pose proof (digits_spec p) as [Hl Hu].
  pose proof (Pos2Z.is_pos (digits2_pos p)) as Hd.
  remember (Zpos (digits2_pos p)) as d.
  replace (d + k - 1) with (d - 1 + k) by lia.
  rewrite !Z.pow_add_r by lia.
  assert (0 < 2 ^ k) by (apply Z.pow_pos_nonneg; lia).
  split.
  - apply Z.mul_le_mono_nonneg_r; lia.
  - apply Z.mul_lt_mono_pos_r; lia.
Qed.

(** [binary_round] of a positive mantissa at an exponent not below the
    smallest one. *)
Lemma binary_round_pos sx p ex :
  -1074 < Zpos (digits2_pos p) + ex ->
  let e1 := fexp prec emax (Zpos (digits2_pos p) + ex) in
  binary_round prec emax sx p ex = S754_infinity sx \/
  exists m2 e2,
    binary_round prec emax sx p ex = S754_finite sx m2 e2
    /\ bounded prec emax m2 e2 = true
    /\ e1 <= e2
    /\ (e2 = e1 -> ex <= e1 -> Zpos p / 2 ^ (e1 - ex) <= Zpos m2).
Proof.
  intros Hmin e1. unfold binary_round. fold e1.
  destruct (Z.le_gt_cases ex e1) as [Hle | Hgt].
  - rewrite shl_align_id by assumption.
    destruct (binary_round_aux_pos sx p ex loc_Exact Hle Hmin)
      as [Hi | (m2 & e2 & Hr & Hb & He & Hm)]; [now left | right].
    exists m2, e2. repeat split; auto.
  - destruct (shl_align_spec p ex e1) as [Hm He]; [lia|].
    destruct (shl_align p ex e1) as [mz ez]. cbn [fst snd] in Hm, He. subst ez.
    pose proof (digits_shift p (ex - e1) ltac:(lia) mz Hm) as Hd.
    assert (Hfe : fexp prec emax (Zpos (digits2_pos mz) + e1) = e1).
    { rewrite Hd. replace (Zpos (digits2_pos p) + (ex - e1) + e1)
        with (Zpos (digits2_pos p) + ex) by lia. reflexivity. }
    destruct (binary_round_aux_pos sx mz e1 loc_Exact)
      as [Hi | (m2 & e2 & Hr & Hb & He & _)].
    + rewrite Hfe. lia.
    + rewrite Hd. lia.
    + now left.
    + right. exists m2, e2. rewrite Hfe in He. repeat split; auto. lia.
Qed.

(** *** Addition of non-negative numbers *)

Lemma bounded_inv m e :
  bounded prec emax m e = true ->
  e = Z.max (Zpos (digits2_pos m) + e - 53) (-1074) /\ e <= 971.
Proof.
  unfold bounded, canonical_mantissa.
  rewrite andb_true_iff, Z.eqb_eq, Z.leb_le.
  rewrite fexp_eq. intros [H1 H2]. split; [lia | exact H2].
Qed.

Lemma SFcompare_refl_finite s m e :
  SFcompare (S754_finite s m e) (S754_finite s m e) = Some Eq.
Proof.
  cbn. rewrite Z.compare_refl, Pos.compare_cont_refl. now destruct s.
Qed.

Lemma digits_le p q :
  Zpos p <= Zpos q -> Zpos (digits2_pos p) <= Zpos (digits2_pos q).
Proof.
  intros H. pose proof (digits_spec p) as [Hl _].
  pose proof (digits_spec q) as [_ Hu].
  destruct (Z.le_gt_cases (Zpos (digits2_pos p)) (Zpos (digits2_pos q)))
    as [|Hgt]; [assumption|].
  assert (2 ^ Zpos (digits2_pos q) <= 2 ^ (Zpos (digits2_pos p) - 1))
    by (apply Z.pow_le_mono_r; lia).
  lia.
Qed.

(** Adding a non-negative double to a non-negative double gives a
    non-negative double (possibly [Infinity]) that is not below the first. *)
Lemma add_nonneg x y :
  wf x = true -> wf y = true -> nonneg x = true -> nonneg y = true ->
  wf (SFadd prec emax x y) = true
  /\ nonneg (SFadd prec emax x y) = true
  /\ SFleb x (SFadd prec emax x y) = true.
Proof.
  intros Wx Wy Nx Ny.
  destruct x as [sx | sx | | sx mx ex]; try discriminate Nx;
  destruct y as [sy | sy | | sy my ey]; try discriminate Ny;
  try (destruct sx; try discriminate Nx);
  try (destruct sy; try discriminate Ny);
  try (cbn; repeat split; try reflexivity; try assumption; fail).
  - cbn [SFadd]. repeat split; try assumption. unfold SFleb.
    now rewrite SFcompare_refl_finite.
  - cbn [SFadd]. repeat split; try assumption. unfold SFleb.
    now rewrite SFcompare_refl_finite.
  - cbn [wf valid_binary] in Wx, Wy.
    apply bounded_inv in Wx, Wy. destruct Wx as [Cx Bx], Wy as [Cy By].
    cbn [SFadd cond_Zopp].
    destruct (shl_align_spec mx ex (Z.min ex ey)) as [Hx _]; [lia|].
    destruct (shl_align_spec my ey (Z.min ex ey)) as [Hy _]; [lia|].
    remember (fst (shl_align mx ex (Z.min ex ey))) as X.
    remember (fst (shl_align my ey (Z.min ex ey))) as Y.
    remember (Z.min ex ey) as ez.
    change (Zpos X + Zpos Y) with (Zpos (X + Y)).
    cbn [binary_normalize].
    assert (Hge : Zpos mx * 2 ^ (ex - ez) <= Zpos (X + Y)) by lia.
    assert (Hez : ez <= ex) by lia.
    pose proof (digits_shift mx (ex - ez) ltac:(lia) X Hx) as HdX.
    assert (HdP : Zpos (digits2_pos mx) + (ex - ez)
                  <= Zpos (digits2_pos (X + Y))).
    { rewrite <- HdX. apply digits_le. lia. }
    destruct (binary_round_pos false (X + Y) ez)
      as [Hi | (m2 & e2 & Hr & Hb & He & Hm)].
    + lia.
    + rewrite Hi. repeat split.
    + rewrite Hr. rewrite fexp_eq in He, Hm. repeat split.
      * exact Hb.
      * unfold SFleb. cbn [SFcompare].
        destruct (Z.compare_spec ex e2) as [Heq | Hlt | Hgt]; try reflexivity.
        -- subst e2.
           assert (He1 : ex = Z.max (Zpos (digits2_pos (X + Y)) + ez - 53)
                                    (-1074)) by lia.
           specialize (Hm He1 ltac:(lia)). rewrite <- He1 in Hm.
           assert (Zpos mx <= Zpos (X + Y) / 2 ^ (ex - ez)).
           { apply Z.div_le_lower_bound; [apply Z.pow_pos_nonneg; lia |].
             rewrite Z.mul_comm. exact Hge. }
           assert (Hmm : Zpos mx <= Zpos m2)
             by (eapply Z.le_trans; eassumption).
           change (PosDef.Pos.compare_cont Eq mx m2) with (Pos.compare mx m2).
           destruct (Pos.compare_spec mx m2) as [|Hc|Hc]; try reflexivity.
           apply Pos2Z.pos_lt_pos in Hc. clear - Hc Hmm. lia.
        -- lia.
Qed.

(** *** Sign of a difference and order *)

Lemma normalize_pos_iff M ez :
  -1074 <= ez ->
  SFltb (S754_zero false) (binary_normalize prec emax M ez false) = true
  <-> 0 < M.
Proof.
  intros Hez. destruct M as [|P|P]; cbn [binary_normalize].
  - cbn. split; [discriminate | lia].
  - split; [lia | intros _].
    destruct (binary_round_pos false P ez) as [Hi | (m2 & e2 & Hr & _)];
      [lia | rewrite Hi | rewrite Hr]; reflexivity.
  - split; [|lia]. intros H.
    destruct (binary_round_pos true P ez) as [Hi | (m2 & e2 & Hr & _)];
      [lia | rewrite Hi in H | rewrite Hr in H]; discriminate H.
Qed.

(** On canonical mantissas the lexicographic comparison of (exponent,
    mantissa) is the comparison of the values. *)
Lemma canonical_compare mx ex my ey :
  bounded prec emax mx ex = true -> bounded prec emax my ey = true ->
  match ex ?= ey with
  | Lt => Lt
  | Gt => Gt
  | Eq => Pos.compare_cont Eq mx my
  end
  = (Zpos (fst (shl_align mx ex (Z.min ex ey)))
     ?= Zpos (fst (shl_align my ey (Z.min ex ey)))).
Proof.
  intros Bx By. apply bounded_inv in Bx, By.
  destruct Bx as [Cx _], By as [Cy _].
  destruct (shl_align_spec mx ex (Z.min ex ey)) as [Hx _]; [lia|].
  destruct (shl_align_spec my ey (Z.min ex ey)) as [Hy _]; [lia|].
  rewrite Hx, Hy. clear Hx Hy.
  pose proof (digits_spec mx) as [Lx Ux].
  pose proof (digits_spec my) as [Ly Uy].
  remember (Zpos (digits2_pos mx)) as dx.
  remember (Zpos (digits2_pos my)) as dy.
  assert (Hx53 : Zpos mx < 2 ^ 53).
  { eapply Z.lt_le_trans; [exact Ux|]. apply Z.pow_le_mono_r; lia. }
  assert (Hy53 : Zpos my < 2 ^ 53).
  { eapply Z.lt_le_trans; [exact Uy|]. apply Z.pow_le_mono_r; lia. }
  destruct (Z.compare_spec ex ey) as [Heq | Hlt | Hgt].
  - subst ey. rewrite Z.min_id, Z.sub_diag, Z.pow_0_r, !Z.mul_1_r. reflexivity.
  - replace (Z.min ex ey) with ex by lia.
    rewrite Z.sub_diag, Z.pow_0_r, Z.mul_1_r. symmetry. apply Z.compare_lt_iff.
    assert (Hd : dy = 53) by lia. rewrite Hd in Ly.
    assert (2 <= 2 ^ (ey - ex)).
    { change 2 with (2 ^ 1) at 1. apply Z.pow_le_mono_r; lia. }
    change (53 - 1) with 52 in Ly.
    assert (2 ^ 52 * 2 <= Zpos my * 2 ^ (ey - ex))
      by (apply Z.mul_le_mono_nonneg; lia).
    change (2 ^ 52 * 2) with (2 ^ 53) in *. lia.
  - replace (Z.min ex ey) with ey by lia.
    rewrite Z.sub_diag, Z.pow_0_r, Z.mul_1_r. symmetry. apply Z.compare_gt_iff.
    assert (Hd : dx = 53) by lia. rewrite Hd in Lx.
    assert (2 <= 2 ^ (ex - ey)).
    { change 2 with (2 ^ 1) at 1. apply Z.pow_le_mono_r; lia. }
    change (53 - 1) with 52 in Lx.
    assert (2 ^ 52 * 2 <= Zpos mx * 2 ^ (ex - ey))
      by (apply Z.mul_le_mono_nonneg; lia).
    change (2 ^ 52 * 2) with (2 ^ 53) in *. lia.
Qed.

(** The sign of a rounded difference is the sign of the exact difference:
    [x - y > 0] holds exactly when [x > y]. *)
Lemma sub_pos_iff x y :
  wf x = true -> wf y = true -> nonnan x = true -> nonnan y = true ->
  SFltb (S754_zero false) (SFsub prec emax x y) = true
  <-> SFcompare x y = Some Gt.
Proof.
  intros Wx Wy Nx Ny.
  destruct x as [sx | sx | | sx mx ex]; try discriminate Nx;
  destruct y as [sy | sy | | sy my ey]; try discriminate Ny;
  try (destruct sx, sy; cbn; split; congruence).
  cbn [wf valid_binary] in Wx, Wy.
  pose proof (canonical_compare mx ex my ey Wx Wy) as Hc.
  destruct (bounded_inv _ _ Wx) as [Cx _].
  destruct (bounded_inv _ _ Wy) as [Cy _].
  cbn [SFsub]. rewrite normalize_pos_iff by lia.
  remember (Zpos (fst (shl_align mx ex (Z.min ex ey)))) as X.
  remember (Zpos (fst (shl_align my ey (Z.min ex ey)))) as Y.
  assert (0 < X) by (subst X; lia). assert (0 < Y) by (subst Y; lia).
  cbn [SFcompare].
  assert (Htt : match ex ?= ey with
                | Lt => Gt
                | Gt => Lt
                | Eq => CompOpp (Pos.compare_cont Eq mx my)
                end = CompOpp (X ?= Y)).
  { rewrite <- Hc. now destruct (ex ?= ey). }
  destruct sx, sy; cbn [cond_Zopp].
  - rewrite Htt.
    destruct (Z.compare_spec X Y); cbn [CompOpp];
      (split; [intros ?; try reflexivity; lia
              | intros ?; try discriminate; lia]).
  - split; [lia | discriminate].
  - split; [reflexivity | lia].
  - rewrite Hc.
    destruct (Z.compare_spec X Y);
      (split; [intros ?; try reflexivity; lia
              | intros ?; try discriminate; lia]).
Qed.

Lemma SFcompare_antisym x y c :
  SFcompare x y = Some c -> SFcompare y x = Some (CompOpp c).
Proof.
  destruct x as [sx | sx | | sx mx ex], y as [sy | sy | | sy my ey];
    try (destruct sx); try (destruct sy); cbn; try congruence;
    try (intros [= <-]; reflexivity).
  - intros [= <-]. rewrite (Z.compare_antisym ex ey).
    destruct (ex ?= ey); cbn; try reflexivity.
    change (PosDef.Pos.compare_cont Eq) with Pos.compare.
    now rewrite (Pos.compare_antisym mx my), CompOpp_involutive.
  - intros [= <-]. rewrite (Z.compare_antisym ex ey).
    destruct (ex ?= ey); cbn; try reflexivity.
    change (PosDef.Pos.compare_cont Eq) with Pos.compare.
    now rewrite (Pos.compare_antisym mx my).
Qed.

Lemma SFleb_finite_iff m1 e1 m2 e2 :
  SFleb (S754_finite false m1 e1) (S754_finite false m2 e2) = true
  <-> e1 < e2 \/ (e1 = e2 /\ Zpos m1 <= Zpos m2).
Proof.
  unfold SFleb. cbn [SFcompare].
  change (PosDef.Pos.compare_cont Eq m1 m2) with (Pos.compare m1 m2).
  destruct (Z.compare_spec e1 e2) as [He | He | He].
  - destruct (Pos.compare_spec m1 m2) as [Hm | Hm | Hm].
    + subst. split; [right; split; lia | reflexivity].
    + apply Pos2Z.pos_lt_pos in Hm. split; [right; split; lia | reflexivity].
    + apply Pos2Z.pos_lt_pos in Hm. split; [discriminate | lia].
  - split; [left; exact He | reflexivity].
  - split; [discriminate | lia].
Qed.

Lemma SFleb_finite_neg_iff m1 e1 m2 e2 :
  SFleb (S754_finite true m1 e1) (S754_finite true m2 e2) = true
  <-> e2 < e1 \/ (e1 = e2 /\ Zpos m2 <= Zpos m1).
Proof.
  unfold SFleb. cbn [SFcompare].
  change (PosDef.Pos.compare_cont Eq m1 m2) with (Pos.compare m1 m2).
  destruct (Z.compare_spec e1 e2) as [He | He | He].
  - destruct (Pos.compare_spec m1 m2) as [Hm | Hm | Hm]; cbn [CompOpp].
    + subst. split; [right; split; lia | reflexivity].
    + apply Pos2Z.pos_lt_pos in Hm. split; [discriminate | lia].
    + apply Pos2Z.pos_lt_pos in Hm. split; [right; split; lia | reflexivity].
  - split; [discriminate | lia].
  - split; [left; exact He | reflexivity].
Qed.

Lemma SFleb_trans x y z :
  SFleb x y = true -> SFleb y z = true -> SFleb x z = true.
Proof.
  intros Hxy Hyz.
  destruct x as [sx | sx | | sx mx ex]; try discriminate Hxy;
    try (destruct sx);
  destruct y as [sy | sy | | sy my ey]; try discriminate Hxy;
    try (destruct sy); try discriminate Hxy;
  destruct z as [sz | sz | | sz mz ez]; try discriminate Hyz;
    try (destruct sz); try discriminate Hyz;
  try reflexivity.
  - apply SFleb_finite_neg_iff in Hxy, Hyz. apply SFleb_finite_neg_iff. lia.
  - apply SFleb_finite_iff in Hxy, Hyz. apply SFleb_finite_iff. lia.
Qed.

(** *** A finite number divided by, or subtracted from, itself *)

Lemma div_core_self m e :
  SFdiv_core_binary prec emax (Zpos m) e (Zpos m) e = (2 ^ 53, -53, loc_Exact).
Proof.
  unfold SFdiv_core_binary. cbn [Zdigits2].
  rewrite !Z.sub_diag.
  change (Z.min (fexp prec emax 0) 0) with (-53).
  change (0 - -53) with 53. cbv iota beta.
  rewrite Z.shiftl_mul_pow2 by lia.
  destruct (Z.div_eucl (Zpos m * 2 ^ 53) (Zpos m)) as [q r] eqn:E.
  assert (Hq : q = Zpos m * 2 ^ 53 / Zpos m) by (unfold Z.div; now rewrite E).
  assert (Hr : r = (Zpos m * 2 ^ 53) mod Zpos m)
    by (unfold Z.modulo; now rewrite E).
  rewrite (Z.mul_comm (Zpos m)) in Hq, Hr.
  rewrite Z.div_mul in Hq by lia. rewrite Z.mod_mul in Hr by lia.
  subst q r. f_equal.
  unfold new_location, new_location_even, new_location_odd.
  now destruct (Z.even (Zpos m)).
Qed.

Lemma div_self s m e :
  SFdiv prec emax (S754_finite s m e) (S754_finite s m e)
  = S754_finite false 4503599627370496 (-52).
Proof.
  unfold SFdiv. rewrite div_core_self. rewrite xorb_nilpotent. reflexivity.
Qed.

Lemma sub_self s m e :
  SFsub prec emax (S754_finite s m e) (S754_finite s m e) = S754_zero false.
Proof.
  unfold SFsub. rewrite Z.sub_diag. reflexivity.
Qed.

(** The same facts on the operators of the program. *)

Lemma add_mono x y :
  wf x = true -> wf y = true -> nonneg x = true -> nonneg y = true ->
  wf (add x y) = true /\ nonneg (add x y) = true /\ leb x (add x y) = true.
Proof. apply add_nonneg. Qed.

Lemma gtb_sub_iff x y :
  wf x = true -> wf y = true -> nonnan x = true -> nonnan y = true ->
  gtb (sub x y) zero = true <-> SFcompare x y = Some Gt.
Proof. apply sub_pos_iff. Qed.

Lemma leb_trans x y z :
  leb x y = true -> leb y z = true -> leb x z = true.
Proof. apply SFleb_trans. Qed.

Lemma compare_total x y :
  nonnan x = true -> nonnan y = true -> exists c, SFcompare x y = Some c.
Proof.
  intros Hx Hy.
  destruct x as [sx | sx | | sx mx ex]; try discriminate Hx;
    destruct y as [sy | sy | | sy my ey]; try discriminate Hy;
    cbn; eauto.
Qed.

Lemma positive_below_finite x y :
  ltb zero x = true -> leb x y = true -> is_finite y = true ->
  exists m e, x = S754_finite false m e.
Proof.
  intros Hx Hxy Hy.
  destruct x as [sx | sx | | sx mx ex]; try discriminate Hx.
  - destruct sx; try discriminate Hx.
    destruct y as [sy | sy | | sy my ey]; try discriminate Hy;
      try discriminate Hxy.
  - destruct sx; try discriminate Hx. now exists mx, ex.
Qed.

Lemma Math_min_l x y :
  ltb zero x = true -> leb x y = true -> Math_min x y = x.
Proof.
  unfold ltb, leb, SFltb, SFleb, Math_min. intros Hx Hxy.
  destruct (SFcompare x y) as [[ | | ]|]; try discriminate Hxy; try reflexivity.
  destruct x as [sx | | | ]; try reflexivity. discriminate Hx.
Qed.

Lemma div_finite_self s m e :
  div (S754_finite s m e) (S754_finite s m e) = lit 1.
Proof. apply div_self. Qed.

Lemma sub_finite_self s m e :
  sub (S754_finite s m e) (S754_finite s m e) = zero.
Proof. apply sub_self. Qed.

End NumberFacts.

(** ** Facts about the program *)

Lemma falsyString_true_iff s : falsyString s = true <-> s = "".
Proof. destruct s; cbn; split; congruence. Qed.

Lemma falsyString_false s : s <> "" -> falsyString s = false.
Proof. destruct s; cbn; congruence. Qed.

(** What the simulator returns once its guard is passed. *)
Lemma calculateOrderMetrics_passed orderbook order :
  order_price order <> "" -> order_quantity order <> "" ->
  calculateOrderMetrics orderbook order =
    let price := JS.parseFloat (order_price order) in
    let quantity := JS.parseFloat (order_quantity order) in
    let levels := levelsFor orderbook (side order) in
    let v :=
      match orderType order with
      | market => marketBranch levels quantity (initVars quantity)
      | limit =>
          limitBranch levels (side order) price quantity (initVars quantity)
      end in
    Some (mkMetrics (JS.Math_min (Var.fillPercentage v) (JS.lit 100))
                    (Var.averageFillPrice v) (Var.slippage v)
                    (Var.marketImpact v)
                    (Var.totalCost v || price * quantity)%js).
Proof.
  intros Hp Hq. unfold calculateOrderMetrics.
  now rewrite (falsyString_false _ Hp), (falsyString_false _ Hq).
Qed.

Lemma findIndex_none_iff {A : Type} (p : A -> bool) (l : list A) :
  findIndex p l = None <-> forall x, In x l -> p x = false.
Proof.
  induction l as [|y r IH]; cbn.
  - split; [intros _ x [] | reflexivity].
  - destruct (p y) eqn:Ey.
    + split; [discriminate | intros H]. specialize (H y (or_introl eq_refl)).
      congruence.
    + destruct (findIndex p r); cbn.
      * split; [discriminate | intros H].
        assert (Hn : @Some nat n = None); [|discriminate Hn].
        apply IH. intros x Hx. apply H. now right.
      * split; [|reflexivity].
        intros _ x [<- | Hx]; [assumption | now apply IH].
Qed.

(** ** The claims *)

(** *** C1 *)

(** C1, as stated, fails: with no asks at all, a market Buy with non-empty
    price and quantity strings is answered with a metrics value. *)
Lemma C1_counterexample :
  let book := mkBook [levelOf 99 5 5] [] (TsString "0") in
  let order := mkOrder market buy "100" "1" in
  levelsFor book (side order) = []
  /\ calculateOrderMetrics book order
     = Some (mkMetrics JS.zero JS.zero JS.zero JS.zero (JS.lit 100)).
Proof. split; reflexivity. Qed.

(** C1 (amended): when the relevant side of the book has no level, the
    simulator returns no result only if the price or the quantity string is
    empty; otherwise it returns the metrics value whose fill percentage,
    average fill price, slippage and market impact are 0 and whose estimated
    cost is price * quantity.  The function is total: no division is
    evaluated on that path. *)
Theorem C1_empty_side book order :
  levelsFor book (side order) = [] ->
  calculateOrderMetrics book order =
    if falsyString (order_price order) || falsyString (order_quantity order)
    then None
    else Some (mkMetrics JS.zero JS.zero JS.zero JS.zero
                 (JS.parseFloat (order_price order)
                  * JS.parseFloat (order_quantity order))%js).
Proof.
  intros Hl. unfold calculateOrderMetrics. rewrite Hl.
  destruct (falsyString (order_price order)
            || falsyString (order_quantity order)); [reflexivity|].
  destruct (orderType order), (side order); reflexivity.
Qed.

Lemma C1_empty_side_witness :
  calculateOrderMetrics (mkBook [levelOf 99 5 5] [] (TsString "0"))
                        (mkOrder limit buy "100" "2")
  = Some (mkMetrics JS.zero JS.zero JS.zero JS.zero
            (JS.parseFloat "100" * JS.parseFloat "2")%js).
Proof.
  apply (C1_empty_side (mkBook [levelOf 99 5 5] [] (TsString "0"))
                       (mkOrder limit buy "100" "2")).
  reflexivity.
Defined.

(** *** C2 *)

(** C2, as stated, fails: the quantity ["abc"] parses to [NaN], and the
    simulator still returns a metrics value, whose estimated cost is [NaN]. *)
Lemma C2_counterexample :
  let book := mkBook [] [levelOf 100 10 10] (TsString "0") in
  let order := mkOrder market buy "7" "abc" in
  JS.parseFloat (order_quantity order) = JS.NaN
  /\ calculateOrderMetrics book order
     = Some (mkMetrics JS.zero JS.zero JS.zero JS.zero JS.NaN).
Proof. split; reflexivity. Qed.

(** C2 (amended): the simulator rejects a request, returning no result,
    exactly when its price string or its quantity string is empty; a
    non-empty string that does not parse to a number is not rejected. *)
Theorem C2_rejects_exactly_empty book order :
  calculateOrderMetrics book order = None
  <-> order_price order = "" \/ order_quantity order = "".
Proof.
  unfold calculateOrderMetrics.
  destruct (falsyString (order_price order)) eqn:Ep;
    destruct (falsyString (order_quantity order)) eqn:Eq; cbn [orb].
  - split; [intros _; left; now apply falsyString_true_iff | reflexivity].
  - split; [intros _; left; now apply falsyString_true_iff | reflexivity].
  - split; [intros _; right; now apply falsyString_true_iff | reflexivity].
  - split; [discriminate|].
    intros [H | H]; apply falsyString_true_iff in H; congruence.
Qed.

(** *** C3 *)

(** C3, as stated, fails: against the single zero-size ask at 100, the walk
    of a market Buy of 5 accumulates the cost 0, and the estimated cost
    returned is the fall-back 7 * 5 = 35. *)
Lemma C3_counterexample :
  let book := mkBook [] [levelOf 100 0 0] (TsString "0") in
  let order := mkOrder market buy "7" "5" in
  levelsFor book (side order) <> []
  /\ Var.totalCost (marketLoop (levelsFor book (side order))
                      (initVars (JS.parseFloat (order_quantity order))))
     = JS.zero
  /\ option_map estimatedCost (calculateOrderMetrics book order)
     = Some (JS.lit 35).
Proof. split; [discriminate | split; reflexivity]. Qed.

(** C3 (amended): for every market order with non-empty price and quantity
    strings, the returned estimated cost is the cost accumulated by the level
    walk when that cost is neither zero nor [NaN], and price * quantity
    otherwise: the fall-back applies in the market branch too. *)
Theorem C3_estimated_cost book order :
  orderType order = market ->
  order_price order <> "" -> order_quantity order <> "" ->
  let price := JS.parseFloat (order_price order) in
  let quantity := JS.parseFloat (order_quantity order) in
  let cost :=
    Var.totalCost
      (marketLoop (levelsFor book (side order)) (initVars quantity)) in
  exists m,
    calculateOrderMetrics book order = Some m
    /\ estimatedCost m
       = (if JS.truthy cost then cost else (price * quantity)%js).
Proof.
  intros Hm Hp Hq price quantity cost.
  rewrite (calculateOrderMetrics_passed _ _ Hp Hq), Hm. cbv zeta.
  eexists. split; [reflexivity|]. cbn [estimatedCost].
  unfold marketBranch. fold quantity. fold price.
  destruct (JS.gtb _ _); cbn [Var.totalCost]; reflexivity.
Qed.

Lemma C3_estimated_cost_witness :
  exists m,
    calculateOrderMetrics (mkBook [] [levelOf 100 10 10] (TsString "0"))
                          (mkOrder market buy "7" "5") = Some m
    /\ estimatedCost m = JS.lit 500.
Proof.
  apply (C3_estimated_cost (mkBook [] [levelOf 100 10 10] (TsString "0"))
                           (mkOrder market buy "7" "5"));
    [reflexivity | discriminate | discriminate].
Defined.

(** *** C4 *)

Lemma withTotals_fields running levels :
  map priceSize (withTotals running levels) = map priceSize levels.
Proof.
  revert running. induction levels as [|l rest IH]; intros running; cbn.
  - reflexivity.
  - now rewrite IH.
Qed.

Lemma parseLevel_fields raws :
  map priceSize (map parseLevel raws) = map parsedPair raws.
Proof. rewrite map_map. reflexivity. Qed.

(** C4, as stated, fails: the token ["abc"] does not parse, the update is
    not refused and the level is not dropped; the book built has a level
    whose price is [NaN]. *)
Lemma C4_counterexample :
  let raw := mkOKX [] [("abc", "1"); ("100", "2")] "0" in
  JS.parseFloat "abc" = JS.NaN
  /\ asks (processOKXData raw)
     = [mkLevel JS.NaN (JS.lit 1) (JS.lit 1); levelOf 100 2 3].
Proof. split; reflexivity. Qed.

(** C4 (amended): the book builder keeps every raw level: each side of the
    book it returns has one level per raw pair, in the same order, whose
    price and size are [parseFloat] of the two tokens, hence [NaN] for a
    token that does not parse.  No level is dropped and no update is
    refused. *)
Theorem C4_builder_keeps_every_level :
  (forall raw : OKXBook,
      map priceSize (bids (processOKXData raw)) = map parsedPair (okx_bids raw)
      /\ map priceSize (asks (processOKXData raw))
         = map parsedPair (okx_asks raw))
  /\ (forall data : BybitBook,
      map priceSize (bids (processBybitData data))
      = map parsedPair (bybit_b data)
      /\ map priceSize (asks (processBybitData data))
         = map parsedPair (bybit_a data)).
Proof.
  split; intros raw; unfold processOKXData, processBybitData, calculateTotals;
    cbn [bids asks]; rewrite !withTotals_fields, !parseLevel_fields; split;
    reflexivity.
Qed.

(** *** C5 *)

(** Runs the loop on a non-empty list and reads the variables. *)
Ltac simpl_vars :=
  cbn [marketLoop initVars
       Var.remainingQuantity Var.totalCost Var.weightedPriceSum
       Var.filledQuantity Var.fillPercentage Var.averageFillPrice
       Var.slippage Var.marketImpact].

(** Once nothing remains to fill, the loop leaves its variables alone. *)
Lemma marketLoop_done levels v :
  (Var.remainingQuantity v <=? JS.zero)%js = true -> marketLoop levels v = v.
Proof. intros H. destruct levels; cbn; [reflexivity | now rewrite H]. Qed.

(** The walk of a market order that the top level can fill alone. *)
Lemma marketLoop_top quantity top rest :
  JS.is_finite (size top) = true ->
  (JS.zero <? quantity)%js = true -> (quantity <=? size top)%js = true ->
  marketLoop (top :: rest) (initVars quantity)
  = Var.mk JS.zero JS.zero JS.zero JS.zero JS.zero
           (JS.zero + quantity * price top)%js
           (JS.zero + quantity * price top)%js
           quantity.
Proof.
  intros Hfin Hpos Hle.
  destruct (NumberFacts.positive_below_finite _ _ Hpos Hle Hfin)
    as (m & e & Hq).
  simpl_vars.
  rewrite (NumberFacts.Math_min_l _ _ Hpos Hle).
  subst quantity. change (JS.leb (S754_finite false m e) JS.zero) with false.
  cbv iota. rewrite NumberFacts.sub_finite_self.
  rewrite marketLoop_done by reflexivity. reflexivity.
Qed.

(** C5, as stated, fails: a market Buy of 0.1 against the single ask
    (price 3, size 1) is filled by the top level alone, and its average fill
    price is 3.0000000000000004, the rounded quotient of the rounded product
    0.1 * 3 = 0.30000000000000004 by 0.1; the slippage is about 1.48e-14,
    not 0. *)
Lemma C5_counterexample :
  let book := mkBook [] [levelOf 3 1 1] (TsString "0") in
  let order := mkOrder market buy "1" "0.1" in
  let quantity := JS.parseFloat (order_quantity order) in
  (JS.zero <? quantity)%js = true
  /\ (quantity <=? JS.lit 1)%js = true
  /\ option_map averageFillPrice (calculateOrderMetrics book order)
     = Some (JS.parseFloat "3.0000000000000004")
  /\ JS.parseFloat "3.0000000000000004" <> JS.lit 3
  /\ option_map slippage (calculateOrderMetrics book order)
     = Some (JS.parseFloat "1.4802973661668753e-14")
  /\ JS.parseFloat "1.4802973661668753e-14" <> JS.zero.
Proof.
  repeat split; try reflexivity; vm_compute; discriminate.
Qed.

(** C5 (amended): for every relevant side whose top level has a finite
    size, and every market order with a non-empty price string and
    0 < quantity <= that size, the order is filled by the top level alone:
    the fill percentage is 100; the average fill price is
    (0 + quantity * top price) / quantity in double arithmetic, which is the
    top price only up to the rounding of the product and of the quotient;
    the slippage is |(average - best) / best| * 100 with best the top price
    (or 0 when that is falsy), and it is 0 whenever the average is exactly a
    finite non-zero top price. *)
Theorem C5_fill_at_top book order top rest :
  orderType order = market ->
  order_price order <> "" ->
  levelsFor book (side order) = top :: rest ->
  let quantity := JS.parseFloat (order_quantity order) in
  JS.is_finite (size top) = true ->
  (JS.zero <? quantity)%js = true ->
  (quantity <=? size top)%js = true ->
  exists m,
    calculateOrderMetrics book order = Some m
    /\ fillPercentage m = JS.lit 100
    /\ averageFillPrice m = ((JS.zero + quantity * price top) / quantity)%js
    /\ slippage m
       = (JS.Math_abs ((averageFillPrice m - (price top || JS.zero))
                       / (price top || JS.zero)) * JS.lit 100)%js
    /\ (averageFillPrice m = price top ->
        JS.is_finite (price top) = true -> JS.truthy (price top) = true ->
        slippage m = JS.zero).
Proof.
  intros Hm Hp Hl quantity Hfin Hpos Hle.
  assert (Hq : order_quantity order <> "").
  { intros E. unfold quantity in Hpos. rewrite E in Hpos. discriminate Hpos. }
  rewrite (calculateOrderMetrics_passed _ _ Hp Hq), Hm, Hl. cbv zeta.
  fold quantity. unfold marketBranch.
  rewrite (marketLoop_top _ _ _ Hfin Hpos Hle). simpl_vars.
  change (JS.gtb quantity JS.zero) with (JS.ltb JS.zero quantity).
  rewrite Hpos. simpl_vars. cbn [firstPriceOr].
  destruct (NumberFacts.positive_below_finite _ _ Hpos Hle Hfin)
    as (m & e & Eq).
  eexists. split; [reflexivity|].
  cbn [fillPercentage averageFillPrice slippage].
  split; [|split; [reflexivity | split; [reflexivity|]]].
  - rewrite Eq, NumberFacts.div_finite_self. reflexivity.
  - intros Havg Hpf Hpt. rewrite Havg.
    destruct (price top) as [s | s | | s pm pe]; try discriminate Hpf;
      try discriminate Hpt.
    unfold JS.or. cbn [JS.truthy].
    rewrite NumberFacts.sub_finite_self. now destruct s.
Qed.

Lemma C5_fill_at_top_witness :
  exists m,
    calculateOrderMetrics (mkBook [] [levelOf 100 10 10] (TsString "0"))
                          (mkOrder market buy "1" "5") = Some m
    /\ fillPercentage m = JS.lit 100
    /\ averageFillPrice m = JS.lit 100
    /\ slippage m = JS.zero.
Proof.
  destruct (C5_fill_at_top (mkBook [] [levelOf 100 10 10] (TsString "0"))
                           (mkOrder market buy "1" "5")
                           (levelOf 100 10 10) [])
    as (m & Hm & Hfill & Havg & _ & Hslip);
    try solve [reflexivity | discriminate].
  exists m. split; [exact Hm|]. split; [exact Hfill|].
  split; [rewrite Havg; reflexivity|].
  apply Hslip; [rewrite Havg|..]; reflexivity.
Defined.

(** *** C6 *)

(** A price at or above 100 is not at or below 99. *)
Lemma above_100_not_below_99 p :
  (JS.lit 100 <=? p)%js = true -> (p <=? JS.parseFloat "99")%js = false.
Proof.
  change (JS.lit 100) with (S754_finite false 7036874417766400 (-46)).
  change (JS.parseFloat "99") with (S754_finite false 6966505673588736 (-46)).
  unfold JS.leb. intros H.
  destruct p as [s | s | | s m e]; try discriminate H;
    try (destruct s; try discriminate H; reflexivity).
  destruct s; [discriminate H|].
  apply NumberFacts.SFleb_finite_iff in H.
  destruct (SFleb _ _) eqn:E; [|reflexivity].
  apply NumberFacts.SFleb_finite_iff in E. lia.
Qed.

(** C6, as stated, fails: the single ask at 100 has size 0, hence cumulative
    size 0; a Limit Buy of 5 at 101 crosses it, and the market impact
    returned is 5 / 1 * 100 = 500, whereas
    quantity / (first cumulative size) * 100 is [Infinity]. *)
Lemma C6_counterexample :
  let book := mkBook [] [levelOf 100 0 0] (TsString "0") in
  let order := mkOrder limit buy "101" "5" in
  let price := JS.parseFloat (order_price order) in
  let quantity := JS.parseFloat (order_quantity order) in
  crosses buy price (levelOf 100 0 0) = true
  /\ option_map marketImpact (calculateOrderMetrics book order)
     = Some (JS.lit 500)
  /\ (quantity / total (levelOf 100 0 0) * JS.lit 100)%js = JS.Infinity.
Proof. repeat split; reflexivity. Qed.

(** C6 (amended): for every limit order with non-empty price and quantity
    strings against a non-empty relevant side: if some level crosses (Buy:
    price <= limit price; Sell: price >= limit price) then fillPercentage = 100,
    averageFillPrice = limit price, slippage = 0 and marketImpact =
    quantity / d * 100, where d is the first level's cumulative size, or 1
    when that cumulative size is zero or [NaN]; if no level crosses, the four
    metrics are 0.  In particular a Limit Buy at 99 against asks that are all
    at 100 or above yields all-zero metrics, and a Limit Buy at 101 against
    asks starting at 100 yields fillPercentage = 100, averageFillPrice = 101,
    slippage = 0. *)
Theorem C6_limit_order :
  (forall book order top rest,
      orderType order = limit ->
      order_price order <> "" -> order_quantity order <> "" ->
      levelsFor book (side order) = top :: rest ->
      let price := JS.parseFloat (order_price order) in
      let quantity := JS.parseFloat (order_quantity order) in
      exists m,
        calculateOrderMetrics book order = Some m
        /\ ((exists level, In level (top :: rest)
                           /\ crosses (side order) price level = true) ->
            fillPercentage m = JS.lit 100
            /\ averageFillPrice m = price
            /\ marketImpact m
               = (quantity / (total top || JS.lit 1) * JS.lit 100)%js
            /\ slippage m = JS.zero)
        /\ ((forall level, In level (top :: rest) ->
                           crosses (side order) price level = false) ->
            fillPercentage m = JS.zero
            /\ averageFillPrice m = JS.zero
            /\ slippage m = JS.zero
            /\ marketImpact m = JS.zero))
  /\ (forall bs top rest ts quantity,
      quantity <> "" ->
      Forall (fun l => (JS.lit 100 <=? price l)%js = true) (top :: rest) ->
      exists m,
        calculateOrderMetrics (mkBook bs (top :: rest) ts)
                              (mkOrder limit buy "99" quantity) = Some m
        /\ fillPercentage m = JS.zero
        /\ averageFillPrice m = JS.zero
        /\ slippage m = JS.zero
        /\ marketImpact m = JS.zero)
  /\ (forall bs top rest ts quantity,
      quantity <> "" ->
      price top = JS.lit 100 ->
      exists m,
        calculateOrderMetrics (mkBook bs (top :: rest) ts)
                              (mkOrder limit buy "101" quantity) = Some m
        /\ fillPercentage m = JS.lit 100
        /\ averageFillPrice m = JS.lit 101
        /\ slippage m = JS.zero).
Proof.
  split; [|split].
  - intros book order top rest Hm Hp Hq Hl price quantity.
    rewrite (calculateOrderMetrics_passed _ _ Hp Hq), Hm, Hl. cbv zeta.
    fold price. fold quantity. unfold limitBranch.
    destruct (findIndex (crosses (side order) price) (top :: rest)) eqn:E.
    + eexists. split; [reflexivity|]. split.
      * intros _. repeat split.
      * intros Hnone. apply findIndex_none_iff in Hnone. congruence.
    + eexists. split; [reflexivity|]. split.
      * intros (level & Hin & Hc).
        rewrite (proj1 (findIndex_none_iff _ _) E level Hin) in Hc.
        discriminate Hc.
      * intros _. repeat split.
  - intros bs top rest ts quantity Hq Hall.
    rewrite calculateOrderMetrics_passed by (cbn; congruence).
    cbn [orderType side order_price order_quantity levelsFor asks].
    cbv zeta. unfold limitBranch.
    replace (findIndex (crosses buy (JS.parseFloat "99")) (top :: rest))
      with (@None nat).
    + eexists. split; [reflexivity|]. repeat split.
    + symmetry. apply findIndex_none_iff. intros l Hin.
      rewrite Forall_forall in Hall. specialize (Hall l Hin).
      now apply above_100_not_below_99.
  - intros bs top rest ts quantity Hq Htop.
    rewrite calculateOrderMetrics_passed by (cbn; congruence).
    cbn [orderType side order_price order_quantity levelsFor asks].
    cbv zeta. unfold limitBranch.
    cbn [findIndex crosses]. rewrite Htop.
    change (JS.leb (JS.lit 100) (JS.parseFloat "101")) with true. cbv iota.
    eexists. split; [reflexivity|]. repeat split.
Qed.

Lemma C6_limit_order_witness :
  (exists m,
      calculateOrderMetrics
        (mkBook [] [levelOf 100 10 10; levelOf 101 10 20] (TsString "0"))
        (mkOrder limit buy "99" "5") = Some m
      /\ fillPercentage m = JS.zero
      /\ averageFillPrice m = JS.zero
      /\ slippage m = JS.zero
      /\ marketImpact m = JS.zero)
  /\ (exists m,
      calculateOrderMetrics
        (mkBook [] [levelOf 100 10 10; levelOf 101 10 20] (TsString "0"))
        (mkOrder limit buy "101" "5") = Some m
      /\ fillPercentage m = JS.lit 100
      /\ averageFillPrice m = JS.lit 101
      /\ marketImpact m = JS.lit 50
      /\ slippage m = JS.zero).
Proof.
  split.
  - apply (proj1 (proj2 C6_limit_order) [] (levelOf 100 10 10)
             [levelOf 101 10 20] (TsString "0") "5").
    + discriminate.
    + repeat constructor.
  - destruct (proj1 C6_limit_order
                (mkBook [] [levelOf 100 10 10; levelOf 101 10 20] (TsString "0"))
                (mkOrder limit buy "101" "5")
                (levelOf 100 10 10) [levelOf 101 10 20])
      as (m & Hm & Hcross & _); try solve [reflexivity | discriminate].
    exists m. split; [exact Hm|].
    destruct Hcross as (Hf & Ha & Hi & Hs).
    + exists (levelOf 100 10 10). split; [now left | reflexivity].
    + repeat split; assumption.
Defined.

(** *** C7 *)

Lemma withTotals_length running levels :
  List.length (withTotals running levels) = List.length levels.
Proof.
  revert running. induction levels as [|l rest IH]; intros running; cbn;
    [reflexivity | now rewrite IH].
Qed.

Lemma withTotals_nth levels : forall running i,
  (i < List.length levels)%nat ->
  nth_error (map total (withTotals running levels)) i
  = Some (fold_left addSize (firstn (S i) levels) running).
Proof.
  induction levels as [|l rest IH]; intros running i Hi; cbn in Hi.
  - lia.
  - destruct i as [|i].
    + cbn. now destruct rest.
    + cbn [withTotals map nth_error total]. rewrite IH by lia. reflexivity.
Qed.

Lemma withTotals_last levels : forall running d,
  last (map total (withTotals running levels)) d
  = match levels with
    | [] => d
    | _ => fold_left addSize levels running
    end.
Proof.
  induction levels as [|l rest IH]; intros running d; [reflexivity|].
  cbn [withTotals map total]. specialize (IH (running + size l)%js d).
  destruct rest as [|l2 rest]; [reflexivity|].
  cbn [withTotals map total last] in *. rewrite IH. reflexivity.
Qed.

(** The running total stays a non-negative double and never decreases. *)
Lemma withTotals_sorted levels : forall running,
  JS.wf running = true -> JS.nonneg running = true ->
  Forall (fun l => sizeOk l = true) levels ->
  StronglySorted num_le (map total (withTotals running levels))
  /\ Forall (num_le running) (map total (withTotals running levels)).
Proof.
  induction levels as [|l rest IH]; intros running Hw Hn Hall.
  - split; constructor.
  - inversion Hall as [|? ? Hl Hrest]; subst.
    unfold sizeOk in Hl. rewrite !andb_true_iff in Hl.
    destruct Hl as [[Hlw _] Hln].
    destruct (NumberFacts.add_mono running (size l) Hw Hlw Hn Hln)
      as (Hw' & Hn' & Hle).
    destruct (IH (running + size l)%js Hw' Hn' Hrest) as [Hs Hf].
    cbn [withTotals map total]. split.
    + constructor; assumption.
    + constructor; [exact Hle|].
      eapply Forall_impl; [|exact Hf]. intros t Ht.
      exact (NumberFacts.leb_trans _ _ _ Hle Ht).
Qed.

Lemma withTotals_cumulative levels :
  Forall (fun l => sizeOk l = true) levels ->
  cumulative levels (withTotals JS.zero levels).
Proof.
  intros Hall. unfold cumulative. repeat split.
  - now apply withTotals_sorted.
  - apply withTotals_length.
  - intros i Hi. now rewrite withTotals_nth.
  - rewrite withTotals_last. now destruct levels.
Qed.

(** C7: for every level list with finite, non-negative sizes, the totals
    computed by the book builder never decrease along the side, the total at
    index i is the sum (left to right, in double arithmetic) of the sizes at
    indices 0..=i, and the last total is the sum of all the sizes; this holds
    for the bids and for the asks of every book built. *)
Theorem C7_cumulative_totals book :
  Forall (fun l => sizeOk l = true) (bids book) ->
  Forall (fun l => sizeOk l = true) (asks book) ->
  cumulative (bids book) (bids (calculateTotals book))
  /\ cumulative (asks book) (asks (calculateTotals book)).
Proof.
  intros Hb Ha. split; cbn [calculateTotals bids asks];
    now apply withTotals_cumulative.
Qed.

Lemma C7_cumulative_totals_witness :
  let book := processOKXData
                (mkOKX [("100", "0.1"); ("99", "0.2"); ("98", "0.3")]
                       [("101", "1.5"); ("102", "0")] "0") in
  cumulative (bids book) (bids (calculateTotals book))
  /\ cumulative (asks book) (asks (calculateTotals book)).
Proof.
  apply C7_cumulative_totals; repeat constructor.
Defined.

(** *** C8 *)




(** *** C9 *)

Lemma insertBy_perm {A : Type} (cmp : A -> A -> JS.number) x l :
  Permutation (insertBy cmp x l) (x :: l).
Proof.
  induction l as [|y r IH]; cbn; [reflexivity|].
  destruct (JS.gtb _ _); [|reflexivity].
  rewrite IH. apply perm_swap.
Qed.

Lemma sortBy_perm {A : Type} (cmp : A -> A -> JS.number) l :
  Permutation (sortBy cmp l) l.
Proof.
  induction l as [|x r IH]; cbn; [reflexivity|].
  rewrite insertBy_perm. now constructor.
Qed.

(** The comparator is positive exactly when its first argument has the
    greater price. *)
Lemma byPrice_positive a b :
  pointOk a -> pointOk b ->
  (byPrice a b >? JS.zero)%js = true
  <-> SFcompare (point_price a) (point_price b) = Some Gt.
Proof.
  intros [Wa Na] [Wb Nb]. unfold byPrice.
  now apply NumberFacts.gtb_sub_iff.
Qed.

Lemma insertBy_sorted x l :
  pointOk x -> Forall pointOk l ->
  StronglySorted pointLe l -> StronglySorted pointLe (insertBy byPrice x l).
Proof.
  intros Hx Hl Hs. induction l as [|y r IH]; cbn.
  - repeat constructor.
  - inversion Hl as [|? ? Hy Hr]; subst.
    apply StronglySorted_inv in Hs. destruct Hs as [Hsr Hyr].
    destruct (JS.gtb (byPrice x y) JS.zero) eqn:E.
    + apply byPrice_positive in E; [|assumption..].
      apply NumberFacts.SFcompare_antisym in E. cbn [CompOpp] in E.
      assert (Hyx : pointLe y x).
      { unfold pointLe, num_le, JS.leb, SFleb. now rewrite E. }
      constructor; [now apply IH|].
      eapply Permutation_Forall;
        [symmetry; apply insertBy_perm | now constructor].
    + assert (Hxy : pointLe x y).
      { destruct (NumberFacts.compare_total (point_price x) (point_price y))
          as [c Hc]; [apply Hx | apply Hy |].
        unfold pointLe, num_le, JS.leb, SFleb. rewrite Hc.
        destruct c; try reflexivity.
        apply byPrice_positive in Hc; [congruence | assumption..]. }
      constructor; [now constructor|].
      constructor; [exact Hxy|].
      eapply Forall_impl; [|exact Hyr]. intros z Hz.
      exact (NumberFacts.leb_trans _ _ _ Hxy Hz).
Qed.

Lemma sortBy_sorted l :
  Forall pointOk l -> StronglySorted pointLe (sortBy byPrice l).
Proof.
  induction l as [|x r IH]; intros Hl; cbn; [constructor|].
  inversion Hl as [|? ? Hx Hr]; subst.
  apply insertBy_sorted; [assumption | | now apply IH].
  eapply Permutation_Forall; [symmetry; apply sortBy_perm | assumption].
Qed.

Lemma depth_points_ok book :
  Forall (fun l => priceOk l = true) (bids book) ->
  Forall (fun l => priceOk l = true) (asks book) ->
  Forall pointOk (rev (map bidPoint (bids book)) ++ map askPoint (asks book)).
Proof.
  intros Hb Ha. apply Forall_app. split.
  - apply Forall_rev. apply Forall_map. eapply Forall_impl; [|exact Hb].
    intros l Hl. unfold priceOk in Hl. apply andb_true_iff in Hl. exact Hl.
  - apply Forall_map. eapply Forall_impl; [|exact Ha].
    intros l Hl. unfold priceOk in Hl. apply andb_true_iff in Hl. exact Hl.
Qed.

Lemma depth_sorted book :
  Forall (fun l => priceOk l = true) (bids book) ->
  Forall (fun l => priceOk l = true) (asks book) ->
  StronglySorted num_le (map point_price (generateDepthChartData book)).
Proof.
  intros Hb Ha. unfold generateDepthChartData.
  pose proof (sortBy_sorted _ (depth_points_ok book Hb Ha)) as Hs.
  induction Hs as [|a l Hs IH Hf]; cbn; constructor; [assumption|].
  now apply Forall_map.
Qed.

(** C9: for every book whose prices are doubles other than [NaN], the
    depth projection returns exactly one point per level of either side,
    sorted ascending by price; the points are, for each bid, the point with
    the bid's price, the bid's cumulative size [total] on the bid side and 0
    on the ask side, and for each ask, the point with the ask's price, 0 on
    the bid side and the ask's cumulative size [total] on the ask side; two
    levels of opposite sides at the same price give two separate points.  In
    particular bids (100, 5) and asks (101, 3) give exactly the points
    (100, bid 5, ask 0) and (101, bid 0, ask 3), in that order; and with two
    levels a side, sizes 5, 2 and 1, 3, the points carry the cumulative sizes
    5, 7 and 1, 4, not the sizes. *)
Theorem C9_depth_projection :
  (forall book,
      Forall (fun l => priceOk l = true) (bids book) ->
      Forall (fun l => priceOk l = true) (asks book) ->
      let points := generateDepthChartData book in
      List.length points = (List.length (bids book) + List.length (asks book))%nat
      /\ StronglySorted num_le (map point_price points)
      /\ Permutation points
           (map (fun bid => mkPoint (price bid) (total bid) JS.zero) (bids book)
            ++ map (fun ask => mkPoint (price ask) JS.zero (total ask))
                   (asks book))%list)
  /\ (forall ts,
      generateDepthChartData (mkBook [levelOf 100 5 5] [levelOf 101 3 3] ts)
      = [mkPoint (JS.lit 100) (JS.lit 5) JS.zero;
         mkPoint (JS.lit 101) JS.zero (JS.lit 3)])
  /\ (forall ts,
      generateDepthChartData (mkBook [levelOf 100 5 5] [levelOf 100 3 3] ts)
      = [mkPoint (JS.lit 100) (JS.lit 5) JS.zero;
         mkPoint (JS.lit 100) JS.zero (JS.lit 3)])
  /\ (forall ts,
      generateDepthChartData
        (mkBook [levelOf 100 5 5; levelOf 99 2 7]
                [levelOf 101 1 1; levelOf 102 3 4] ts)
      = [mkPoint (JS.lit 99) (JS.lit 7) JS.zero;
         mkPoint (JS.lit 100) (JS.lit 5) JS.zero;
         mkPoint (JS.lit 101) JS.zero (JS.lit 1);
         mkPoint (JS.lit 102) JS.zero (JS.lit 4)]).
Proof.
  split; [|repeat split; intros ts; reflexivity].
  intros book Hb Ha points.
  assert (Hperm : Permutation points
                    (map bidPoint (bids book) ++ map askPoint (asks book))).
  { unfold points, generateDepthChartData. rewrite sortBy_perm.
    apply Permutation_app_tail. symmetry. apply Permutation_rev. }
  split; [|split; [now apply depth_sorted | exact Hperm]].
  rewrite (Permutation_length Hperm), length_app, !length_map. reflexivity.
Qed.

Lemma C9_depth_projection_witness :
  let book := mkBook [levelOf 100 5 5; levelOf 99 2 7]
                     [levelOf 100 1 1; levelOf 101 3 4] (TsString "0") in
  let points := generateDepthChartData book in
  List.length points = 4%nat
  /\ StronglySorted num_le (map point_price points)
  /\ Permutation points
       [mkPoint (JS.lit 100) (JS.lit 5) JS.zero;
        mkPoint (JS.lit 99) (JS.lit 7) JS.zero;
        mkPoint (JS.lit 100) JS.zero (JS.lit 1);
        mkPoint (JS.lit 101) JS.zero (JS.lit 4)].
Proof.
  apply (proj1 C9_depth_projection
           (mkBook [levelOf 100 5 5; levelOf 99 2 7]
                   [levelOf 100 1 1; levelOf 101 3 4] (TsString "0")));
    repeat constructor.
Defined.

(** *** C10 *)

(** C10: for every book, a market order whose price string is empty gets no
    result; yet the price of a market order is used for nothing but the
    fall-back of the estimated cost: with two non-empty price strings the
    simulator returns the same fill percentage, average fill price, slippage
    and market impact, and the same estimated cost whenever the cost
    accumulated by the walk is neither zero nor [NaN]. *)
Theorem C10_market_order_price book order :
  orderType order = market ->
  order_price order = "" ->
  calculateOrderMetrics book order = None
  /\ forall p1 p2,
      p1 <> "" -> p2 <> "" ->
      let r1 := calculateOrderMetrics book (withPrice order p1) in
      let r2 := calculateOrderMetrics book (withPrice order p2) in
      let cost :=
        Var.totalCost
          (marketLoop (levelsFor book (side order))
                      (initVars (JS.parseFloat (order_quantity order)))) in
      option_map fillPercentage r1 = option_map fillPercentage r2
      /\ option_map averageFillPrice r1 = option_map averageFillPrice r2
      /\ option_map slippage r1 = option_map slippage r2
      /\ option_map marketImpact r1 = option_map marketImpact r2
      /\ (JS.truthy cost = true ->
          option_map estimatedCost r1 = option_map estimatedCost r2).
Proof.
  intros Hm Hp. split.
  - unfold calculateOrderMetrics. now rewrite Hp.
  - intros p1 p2 H1 H2 r1 r2 cost. unfold r1, r2, calculateOrderMetrics, withPrice.
    cbn [orderType side order_price order_quantity].
    rewrite (falsyString_false _ H1), (falsyString_false _ H2). cbn [orb].
    destruct (falsyString (order_quantity order)); [repeat split|].
    rewrite Hm. cbn [option_map fillPercentage averageFillPrice slippage
                     marketImpact estimatedCost].
    repeat split.
    intros Hc. f_equal.
    assert (Hcost : Var.totalCost
                      (marketBranch (levelsFor book (side order))
                         (JS.parseFloat (order_quantity order))
                         (initVars (JS.parseFloat (order_quantity order))))
                    = cost).
    { unfold marketBranch. now destruct (JS.gtb _ _). }
    rewrite Hcost. unfold JS.or. now rewrite Hc.
Qed.

Lemma C10_market_order_price_witness :
  calculateOrderMetrics
    (mkBook [] [levelOf 100 10 10; levelOf 101 10 20] (TsString "0"))
    (mkOrder market buy "" "15") = None.
Proof.
  apply (C10_market_order_price
           (mkBook [] [levelOf 100 10 10; levelOf 101 10 20] (TsString "0"))
           (mkOrder market buy "" "15"));
    reflexivity.
Defined.

(** ** Further properties of the book builder *)

Lemma withTotals_priceSize running l1 : forall l2,
  map priceSize l1 = map priceSize l2 ->
  withTotals running l1 = withTotals running l2.
Proof.
  revert running. induction l1 as [|a r IH]; intros running [|b r2] H;
    try discriminate H; [reflexivity|].
  cbn in H. injection H as Hp Hs Hr. cbn [withTotals].
  rewrite Hp, Hs. f_equal. now apply IH.
Qed.

Lemma withTotals_firstn k : forall running levels,
  firstn k (withTotals running levels) = withTotals running (firstn k levels).
Proof.
  induction k as [|k IH]; intros running [|l rest]; try reflexivity.
  cbn [withTotals firstn]. now rewrite IH.
Qed.

Lemma withTotals_app l1 : forall running l2,
  withTotals running (l1 ++ l2)
  = (withTotals running l1 ++ withTotals (fold_left addSize l1 running) l2)%list.
Proof.
  induction l1 as [|l r IH]; intros running l2; [reflexivity|].
  cbn [app withTotals fold_left]. now rewrite IH.
Qed.

Lemma withTotals_NaN levels :
  Forall (fun l => total l = JS.NaN) (withTotals JS.NaN levels).
Proof.
  induction levels as [|l r IH]; cbn [withTotals]; constructor.
  - reflexivity.
  - exact IH.
Qed.

(** X1: the totals are recomputed from the sizes alone: two books with the
    same prices, sizes and timestamp are built into the same book whatever
    their [total] fields hold, and building a built book again changes
    nothing. *)
Theorem calculateTotals_idempotent :
  (forall b1 b2,
      map priceSize (bids b1) = map priceSize (bids b2) ->
      map priceSize (asks b1) = map priceSize (asks b2) ->
      timestamp b1 = timestamp b2 ->
      calculateTotals b1 = calculateTotals b2)
  /\ (forall book, calculateTotals (calculateTotals book) = calculateTotals book).
Proof.
  assert (H : forall b1 b2,
             map priceSize (bids b1) = map priceSize (bids b2) ->
             map priceSize (asks b1) = map priceSize (asks b2) ->
             timestamp b1 = timestamp b2 ->
             calculateTotals b1 = calculateTotals b2).
  { intros b1 b2 Hb Ha Ht. unfold calculateTotals.
    now rewrite (withTotals_priceSize _ _ _ Hb),
                (withTotals_priceSize _ _ _ Ha), Ht. }
  split; [exact H|]. intros book. apply H; cbn [calculateTotals bids asks timestamp];
    [apply withTotals_fields | apply withTotals_fields | reflexivity].
Qed.

Lemma calculateTotals_idempotent_witness :
  calculateTotals (mkBook [levelOf 100 5 77] [levelOf 101 3 0] (TsString "0"))
  = calculateTotals (mkBook [levelOf 100 5 0] [levelOf 101 3 9] (TsString "0")).
Proof.
  apply (proj1 calculateTotals_idempotent); reflexivity.
Defined.

(** X2: the totals of the first [k] levels of a side do not depend on the
    levels behind them: cutting a built side to its first [k] levels gives
    what building the cut side gives. *)
Theorem calculateTotals_prefix book k :
  firstn k (bids (calculateTotals book))
  = bids (calculateTotals (mkBook (firstn k (bids book)) (asks book)
                                  (timestamp book)))
  /\ firstn k (asks (calculateTotals book))
     = asks (calculateTotals (mkBook (bids book) (firstn k (asks book))
                                     (timestamp book))).
Proof.
  cbn [calculateTotals bids asks]. now rewrite !withTotals_firstn.
Qed.

(** X3: a level whose size is [NaN] spoils the total of that level and of
    every level behind it on the same side, and of no level before it. *)
Theorem calculateTotals_NaN_size before l after :
  size l = JS.NaN ->
  let levels := (before ++ l :: after)%list in
  firstn (List.length before) (withTotals JS.zero levels)
  = withTotals JS.zero before
  /\ Forall (fun x => total x = JS.NaN)
       (skipn (List.length before) (withTotals JS.zero levels))
  /\ (forall bs ts,
      asks (calculateTotals (mkBook bs levels ts)) = withTotals JS.zero levels)
  /\ (forall az ts,
      bids (calculateTotals (mkBook levels az ts)) = withTotals JS.zero levels).
Proof.
  intros Hs levels.
  assert (Hlen : List.length (withTotals JS.zero before) = List.length before)
    by apply withTotals_length.
  split; [|split; [|split; reflexivity]]; unfold levels;
    rewrite withTotals_app.
  - rewrite <- Hlen, firstn_app, Nat.sub_diag, firstn_all. cbn [firstn].
    now rewrite app_nil_r.
  - rewrite <- Hlen, skipn_app, Nat.sub_diag, skipn_all.
    cbn [skipn app withTotals].
    assert (Hn : forall x, (x + size l)%js = JS.NaN).
    { intros x. rewrite Hs. now destruct x. }
    rewrite Hn. constructor; [reflexivity | apply withTotals_NaN].
Qed.

Lemma calculateTotals_NaN_size_witness :
  Forall (fun x => total x = JS.NaN)
    (skipn 1 (withTotals JS.zero
                [levelOf 100 2 0; parseLevel ("101", "oops"); levelOf 102 1 0])).
Proof.
  apply (calculateTotals_NaN_size [levelOf 100 2 0] (parseLevel ("101", "oops"))
           [levelOf 102 1 0]).
  reflexivity.
Defined.

(** ** Properties of the order-book table *)

Lemma hd_error_rev {A : Type} (l : list A) (d : A) :
  l <> [] -> hd_error (rev l) = Some (last l d).
Proof.
  intros Hl. destruct (exists_last Hl) as (r & x & ->).
  rewrite rev_app_distr, last_last. reflexivity.
Qed.

Lemma last_of_map {A B : Type} (f : A -> B) (l : list A) (d : A) :
  last (map f l) (f d) = f (last l d).
Proof.
  induction l as [|x [|y r] IH]; [reflexivity | reflexivity | exact IH].
Qed.

(** The total of the last level of a built, non-empty side is the sum of the
    sizes of the side. *)
Lemma withTotals_last_level levels d :
  levels <> [] ->
  total (last (withTotals JS.zero levels) d) = sumSizes levels.
Proof.
  intros Hl. rewrite <- last_of_map, withTotals_last.
  destruct levels; [congruence | reflexivity].
Qed.

(** X4: of a built book the table shows at most 20 rows per side; the ask
    row next to the bids is the best ask; and the total shown in the farthest
    row of each side (the first ask row, the last bid row) is the sum of the
    sizes of the rows shown on that side. *)
Theorem displayed_rows raw :
  asks raw <> [] -> bids raw <> [] ->
  let book := calculateTotals raw in
  List.length (displayedAsks book) = Nat.min 20 (List.length (asks raw))
  /\ List.length (displayedBids book) = Nat.min 20 (List.length (bids raw))
  /\ hd_error (rev (displayedAsks book)) = hd_error (asks book)
  /\ option_map total (hd_error (displayedAsks book))
     = Some (sumSizes (firstn 20 (asks raw)))
  /\ option_map total (hd_error (rev (displayedBids book)))
     = Some (sumSizes (firstn 20 (bids raw))).
Proof.
  intros Ha Hb book. unfold displayedAsks, displayedBids, book.
  cbn [calculateTotals asks bids].
  rewrite length_rev, !length_firstn, !withTotals_length, rev_involutive.
  split; [reflexivity|]. split; [reflexivity|]. split.
  { destruct (asks raw); [congruence | reflexivity]. }
  assert (Hside : forall levels, levels <> [] ->
            option_map total
              (hd_error (rev (firstn 20 (withTotals JS.zero levels))))
            = Some (sumSizes (firstn 20 levels))).
  { intros levels Hl. rewrite withTotals_firstn.
    assert (Hne : firstn 20 levels <> [])
      by (destruct levels; [congruence | discriminate]).
    assert (Hw : withTotals JS.zero (firstn 20 levels) <> []).
    { destruct (firstn 20 levels); [congruence | discriminate]. }
    rewrite (hd_error_rev _ (mkLevel JS.zero JS.zero JS.zero) Hw).
    cbn [option_map]. f_equal. now apply withTotals_last_level. }
  split; now apply Hside.
Qed.

Lemma displayed_rows_witness :
  let raw := mkBook [levelOf 100 5 0; levelOf 99 2 0]
                    [levelOf 101 1 0; levelOf 102 3 0] (TsString "0") in
  option_map total (hd_error (displayedAsks (calculateTotals raw)))
  = Some (JS.lit 4).
Proof.
  destruct (displayed_rows
              (mkBook [levelOf 100 5 0; levelOf 99 2 0]
                      [levelOf 101 1 0; levelOf 102 3 0] (TsString "0")))
    as (_ & _ & _ & H & _); [discriminate | discriminate |].
  exact H.
Defined.

(** ** Further properties of the execution simulator *)

Module SignFacts.
Import JS.
Local Open Scope Z_scope.

Lemma shr_nonneg r e n :
  0 <= shr_m r -> 0 <= shr_m (fst (shr r e n)).
Proof.
  intros Hr. destruct n as [|p|p]; cbn [shr fst]; try assumption.
  rewrite NumberFacts.iter_shr_1_m by assumption.
  apply Z.div_pos; [assumption | apply Z.pow_pos_nonneg; lia].
Qed.

(** Rounding keeps the sign it is given. *)
Lemma binary_round_aux_sign sx m ex l :
  0 <= m ->
  match binary_round_aux prec emax sx m ex l with
  | S754_zero s | S754_infinity s | S754_finite s _ _ => s = sx
  | S754_nan => False
  end.
Proof.
  intros Hm. unfold binary_round_aux, shr_fexp.
  pose proof (shr_nonneg (shr_record_of_loc m l) ex
                (fexp prec emax (Zdigits2 m + ex) - ex)) as H1.
  rewrite NumberFacts.shr_record_of_loc_m in H1. specialize (H1 Hm).
  destruct (shr (shr_record_of_loc m l) ex _) as [r1 e1]. cbn [fst] in H1.
  pose proof (NumberFacts.round_nearest_even_bounds (shr_m r1)
                (loc_of_shr_record r1)) as Hr.
  set (m1 := round_nearest_even (shr_m r1) (loc_of_shr_record r1)) in *.
  pose proof (shr_nonneg (shr_record_of_loc m1 loc_Exact) e1
                (fexp prec emax (Zdigits2 m1 + e1) - e1)) as H2.
  rewrite NumberFacts.shr_record_of_loc_m in H2.
  assert (H0 : 0 <= m1) by lia. specialize (H2 H0).
  destruct (shr (shr_record_of_loc m1 loc_Exact) e1 _) as [r2 e2].
  cbn [fst] in H2.
  destruct (shr_m r2) as [|q|q]; [reflexivity | | lia].
  now destruct (e2 <=? emax - prec).
Qed.

(** The product of two numbers that are not negative is [NaN] or not
    negative. *)
Lemma mul_nonneg x y :
  nonneg x = true -> nonneg y = true ->
  mul x y = NaN \/ nonneg (mul x y) = true.
Proof.
  intros Hx Hy.
  destruct x as [sx | sx | | sx mx ex]; try discriminate Hx;
    try (destruct sx; try discriminate Hx);
  destruct y as [sy | sy | | sy my ey]; try discriminate Hy;
    try (destruct sy; try discriminate Hy);
  try (now left); try (now right).
  unfold mul, SFmul. cbn [xorb].
  pose proof (binary_round_aux_sign false (Zpos (mx * my)) (ex + ey)
                loc_Exact ltac:(lia)) as H.
  destruct (binary_round_aux _ _ _ _ _ _) as [s | s | | s m e];
    [subst s | subst s | destruct H | subst s]; now right.
Qed.

Lemma abs_nonneg x : Math_abs x = NaN \/ nonneg (Math_abs x) = true.
Proof. destruct x; [now right | now right | now left | now right]. Qed.

(** [Math.min(x, y)] is [NaN] or at most [y]. *)
Lemma Math_min_le_r x y :
  leb y y = true -> Math_min x y = NaN \/ leb (Math_min x y) y = true.
Proof.
  intros Hy. unfold Math_min, leb, SFleb in *.
  destruct (SFcompare x y) as [[ | | ]|] eqn:E; [| | now right | now left];
    right.
  - assert (Hc : match x, y with
                 | S754_zero false, S754_zero true => y
                 | _, _ => x
                 end = x
                 \/ match x, y with
                    | S754_zero false, S754_zero true => y
                    | _, _ => x
                    end = y).
    { destruct x as [[|]| | |]; try (now left).
      destruct y as [[|]| | |]; try (now left). now right. }
    destruct Hc as [-> | ->]; [now rewrite E | exact Hy].
  - now rewrite E.
Qed.

End SignFacts.

(** X5: the fill percentage returned is never above 100: it is at most 100,
    or [NaN]. *)
Theorem fillPercentage_at_most_100 book order m :
  calculateOrderMetrics book order = Some m ->
  fillPercentage m = JS.NaN \/ (fillPercentage m <=? JS.lit 100)%js = true.
Proof.
  unfold calculateOrderMetrics.
  destruct (falsyString _ || falsyString _); [discriminate|].
  intros [= <-]. cbn [fillPercentage].
  now apply SignFacts.Math_min_le_r.
Qed.

Lemma fillPercentage_at_most_100_witness :
  exists m,
    calculateOrderMetrics (mkBook [] [levelOf 100 10 10] (TsString "0"))
                          (mkOrder market buy "1" "25") = Some m
    /\ (fillPercentage m = JS.NaN
        \/ (fillPercentage m <=? JS.lit 100)%js = true).
Proof.
  eexists. split; [reflexivity|].
  apply (fillPercentage_at_most_100
           (mkBook [] [levelOf 100 10 10] (TsString "0"))
           (mkOrder market buy "1" "25")).
  reflexivity.
Defined.

(** X6: the slippage returned is never negative: it is at least 0, or
    [NaN]. *)
Theorem slippage_not_negative book order m :
  calculateOrderMetrics book order = Some m ->
  slippage m = JS.NaN \/ JS.nonneg (slippage m) = true.
Proof.
  unfold calculateOrderMetrics.
  destruct (falsyString _ || falsyString _); [discriminate|].
  intros [= <-]. cbn [slippage].
  destruct (orderType order).
  - unfold marketBranch.
    destruct (JS.gtb _ _); cbn [Var.slippage].
    + destruct (SignFacts.abs_nonneg
                  ((Var.weightedPriceSum
                      (marketLoop (levelsFor book (side order))
                         (initVars (JS.parseFloat (order_quantity order))))
                    / Var.filledQuantity
                        (marketLoop (levelsFor book (side order))
                           (initVars (JS.parseFloat (order_quantity order))))
                    - firstPriceOr (levelsFor book (side order)) JS.zero)
                   / firstPriceOr (levelsFor book (side order)) JS.zero)%js)
        as [Hn | Hp].
      * left. now rewrite Hn.
      * now apply SignFacts.mul_nonneg.
    + right. assert (Hs : forall levels v, Var.slippage (marketLoop levels v)
                                           = Var.slippage v).
      { induction levels as [|l r IH]; intros v; cbn [marketLoop];
          [reflexivity|]. destruct (JS.leb _ _); [reflexivity|].
        now rewrite IH. }
      now rewrite Hs.
  - unfold limitBranch. destruct (findIndex _ _); now right.
Qed.

Lemma slippage_not_negative_witness :
  exists m,
    calculateOrderMetrics (mkBook [levelOf 100 10 10; levelOf 99 10 20] []
                                  (TsString "0"))
                          (mkOrder market sell "1" "15") = Some m
    /\ (slippage m = JS.NaN \/ JS.nonneg (slippage m) = true).
Proof.
  eexists. split; [reflexivity|].
  apply (slippage_not_negative
           (mkBook [levelOf 100 10 10; levelOf 99 10 20] [] (TsString "0"))
           (mkOrder market sell "1" "15")).
  reflexivity.
Defined.

(** X7: a market order whose quantity is zero or negative is not refused:
    the walk takes nothing, the four metrics are 0 and the estimated cost is
    price * quantity. *)
Theorem market_nonpositive_quantity book order :
  orderType order = market ->
  order_price order <> "" -> order_quantity order <> "" ->
  (JS.parseFloat (order_quantity order) <=? JS.zero)%js = true ->
  calculateOrderMetrics book order
  = Some (mkMetrics JS.zero JS.zero JS.zero JS.zero
            (JS.parseFloat (order_price order)
             * JS.parseFloat (order_quantity order))%js).
Proof.
  intros Hm Hp Hq Hle.
  rewrite (calculateOrderMetrics_passed _ _ Hp Hq), Hm. cbv zeta.
  unfold marketBranch. rewrite marketLoop_done by exact Hle. reflexivity.
Qed.

Lemma market_nonpositive_quantity_witness :
  calculateOrderMetrics (mkBook [] [levelOf 100 10 10] (TsString "0"))
                        (mkOrder market buy "7" "-5")
  = Some (mkMetrics JS.zero JS.zero JS.zero JS.zero (JS.parseFloat "-35")).
Proof.
  apply (market_nonpositive_quantity
           (mkBook [] [levelOf 100 10 10] (TsString "0"))
           (mkOrder market buy "7" "-5"));
    solve [reflexivity | discriminate].
Defined.

(** Once the loop variables are [NaN] they stay [NaN]. *)
Lemma marketLoop_NaN_fixed levels a b c d :
  marketLoop levels (Var.mk a b c d JS.NaN JS.NaN JS.NaN JS.NaN)
  = Var.mk a b c d JS.NaN JS.NaN JS.NaN JS.NaN.
Proof.
  induction levels as [|l r IH]; [reflexivity|].
  cbn [marketLoop Var.remainingQuantity Var.totalCost Var.weightedPriceSum
       Var.filledQuantity Var.fillPercentage Var.averageFillPrice
       Var.slippage Var.marketImpact].
  change (JS.leb JS.NaN JS.zero) with false. cbv iota. exact IH.
Qed.

Lemma mul_NaN_r x : (x * JS.NaN)%js = JS.NaN.
Proof. now destruct x. Qed.

(** X8: a market order whose quantity string parses to [NaN], and a limit
    order whose price string parses to [NaN], get no result when the price
    string or the quantity string is empty (the empty string parses to [NaN]
    too), and otherwise the four metrics 0 and the estimated cost [NaN],
    whatever the book. *)
Theorem NaN_request book order :
  (orderType order = market /\ JS.parseFloat (order_quantity order) = JS.NaN)
  \/ (orderType order = limit /\ JS.parseFloat (order_price order) = JS.NaN) ->
  calculateOrderMetrics book order
  = if falsyString (order_price order) || falsyString (order_quantity order)
    then None
    else Some (mkMetrics JS.zero JS.zero JS.zero JS.zero JS.NaN).
Proof.
  intros H.
  destruct (falsyString (order_price order)) eqn:Ep;
    [unfold calculateOrderMetrics; now rewrite Ep|].
  destruct (falsyString (order_quantity order)) eqn:Eq;
    [unfold calculateOrderMetrics; now rewrite Ep, Eq|].
  assert (Hp : order_price order <> "").
  { intros E. apply falsyString_true_iff in E. congruence. }
  assert (Hq : order_quantity order <> "").
  { intros E. apply falsyString_true_iff in E. congruence. }
  cbn [orb].
  destruct H as [[Hm Hn] | [Hm Hn]];
    rewrite (calculateOrderMetrics_passed _ _ Hp Hq), Hm, Hn; cbv zeta.
  - unfold marketBranch.
    destruct (levelsFor book (side order)) as [|l r].
    + cbn. now rewrite mul_NaN_r.
    + cbn [marketLoop initVars Var.remainingQuantity Var.totalCost
           Var.weightedPriceSum Var.filledQuantity Var.fillPercentage
           Var.averageFillPrice Var.slippage Var.marketImpact].
      change (JS.leb JS.NaN JS.zero) with false. cbv iota.
      change (JS.Math_min JS.NaN (size l)) with JS.NaN.
      change (JS.NaN * price l)%js with JS.NaN.
      change (JS.zero + JS.NaN)%js with JS.NaN.
      change (JS.NaN - JS.NaN)%js with JS.NaN.
      rewrite marketLoop_NaN_fixed. cbn. now rewrite mul_NaN_r.
  - unfold limitBranch.
    replace (findIndex (crosses (side order) JS.NaN)
               (levelsFor book (side order))) with (@None nat).
    + reflexivity.
    + symmetry. apply findIndex_none_iff. intros l _.
      destruct (side order); cbn [crosses]; unfold JS.leb, JS.geb, SFleb;
        now destruct (price l).
Qed.

Lemma NaN_request_witness :
  calculateOrderMetrics
    (mkBook [] [levelOf 100 10 10; levelOf 101 10 20] (TsString "0"))
    (mkOrder market buy "7" "ten")
  = Some (mkMetrics JS.zero JS.zero JS.zero JS.zero JS.NaN)
  /\ calculateOrderMetrics
       (mkBook [] [levelOf 100 10 10; levelOf 101 10 20] (TsString "0"))
       (mkOrder limit buy "" "5")
     = None.
Proof.
  split.
  - apply (NaN_request
             (mkBook [] [levelOf 100 10 10; levelOf 101 10 20] (TsString "0"))
             (mkOrder market buy "7" "ten")).
    left; split; reflexivity.
  - apply (NaN_request
             (mkBook [] [levelOf 100 10 10; levelOf 101 10 20] (TsString "0"))
             (mkOrder limit buy "" "5")).
    right; split; reflexivity.
Defined.

Lemma marketLoop_app l1 : forall l2 v,
  marketLoop (l1 ++ l2) v = marketLoop l2 (marketLoop l1 v).
Proof.
  induction l1 as [|l r IH]; intros l2 v; [reflexivity|].
  cbn [app marketLoop].
  destruct (JS.leb (Var.remainingQuantity v) JS.zero) eqn:E.
  - now rewrite marketLoop_done.
  - apply IH.
Qed.

(** X9: walking a side is walking its first levels and then the rest; and
    once the first levels have filled a market order, the levels behind them
    have no effect on the metrics returned. *)
Theorem market_levels_behind_the_fill :
  (forall l1 l2 v, marketLoop (l1 ++ l2) v = marketLoop l2 (marketLoop l1 v))
  /\ (forall book1 book2 order top l1 l2,
      orderType order = market ->
      levelsFor book1 (side order) = (top :: l1 ++ l2)%list ->
      levelsFor book2 (side order) = top :: l1 ->
      (Var.remainingQuantity
         (marketLoop (top :: l1)
            (initVars (JS.parseFloat (order_quantity order))))
       <=? JS.zero)%js = true ->
      calculateOrderMetrics book1 order = calculateOrderMetrics book2 order).
Proof.
  split; [intros; apply marketLoop_app|].
  intros book1 book2 order top l1 l2 Hm H1 H2 Hdone.
  unfold calculateOrderMetrics. rewrite Hm, H1, H2.
  destruct (falsyString _ || falsyString _); [reflexivity|].
  unfold marketBranch.
  change (top :: l1 ++ l2)%list with ((top :: l1) ++ l2)%list.
  rewrite marketLoop_app, (marketLoop_done l2) by exact Hdone.
  reflexivity.
Qed.

Lemma market_levels_behind_the_fill_witness :
  calculateOrderMetrics
    (mkBook [] [levelOf 100 10 10; levelOf 101 10 20; levelOf 500 1 21]
            (TsString "0"))
    (mkOrder market buy "1" "15")
  = calculateOrderMetrics
      (mkBook [] [levelOf 100 10 10; levelOf 101 10 20] (TsString "0"))
      (mkOrder market buy "1" "15").
Proof.
  apply (proj2 market_levels_behind_the_fill
           (mkBook [] [levelOf 100 10 10; levelOf 101 10 20; levelOf 500 1 21]
                   (TsString "0"))
           (mkBook [] [levelOf 100 10 10; levelOf 101 10 20] (TsString "0"))
           (mkOrder market buy "1" "15")
           (levelOf 100 10 10) [levelOf 101 10 20] [levelOf 500 1 21]);
    reflexivity.
Defined.

Lemma marketLoop_accumulators levels : forall v,
  Var.totalCost v = Var.weightedPriceSum v ->
  Var.totalCost (marketLoop levels v) = Var.weightedPriceSum (marketLoop levels v).
Proof.
  induction levels as [|l r IH]; intros v Hv; [exact Hv|].
  cbn [marketLoop]. destruct (JS.leb _ _); [exact Hv|].
  apply IH. cbn [Var.totalCost Var.weightedPriceSum]. now rewrite Hv.
Qed.

(** X10: the two accumulators of the walk, [totalCost] and
    [weightedPriceSum], are always equal; so whenever a market order is
    filled at all and the cost of the walk is neither zero nor [NaN], the
    average fill price returned is the estimated cost returned divided by
    the quantity filled. *)
Theorem market_average_is_cost_per_unit book order m :
  orderType order = market ->
  calculateOrderMetrics book order = Some m ->
  let w := marketLoop (levelsFor book (side order))
             (initVars (JS.parseFloat (order_quantity order))) in
  Var.totalCost w = Var.weightedPriceSum w
  /\ ((Var.filledQuantity w >? JS.zero)%js = true ->
      JS.truthy (Var.totalCost w) = true ->
      averageFillPrice m = (estimatedCost m / Var.filledQuantity w)%js).
Proof.
  intros Hm Hc w.
  assert (Hacc : Var.totalCost w = Var.weightedPriceSum w)
    by (apply marketLoop_accumulators; reflexivity).
  split; [exact Hacc|]. intros Hf Ht.
  unfold calculateOrderMetrics in Hc.
  destruct (falsyString _ || falsyString _); [discriminate|].
  rewrite Hm in Hc. injection Hc as <-.
  cbn [averageFillPrice estimatedCost]. unfold marketBranch. fold w.
  rewrite Hf. cbn [Var.averageFillPrice Var.totalCost].
  unfold JS.or. now rewrite Ht, Hacc.
Qed.

Lemma market_average_is_cost_per_unit_witness :
  exists m,
    calculateOrderMetrics
      (mkBook [] [levelOf 100 10 10; levelOf 101 10 20] (TsString "0"))
      (mkOrder market buy "1" "15") = Some m
    /\ averageFillPrice m = (estimatedCost m / JS.lit 15)%js.
Proof.
  eexists. split; [reflexivity|].
  apply (market_average_is_cost_per_unit
           (mkBook [] [levelOf 100 10 10; levelOf 101 10 20] (TsString "0"))
           (mkOrder market buy "1" "15"));
    reflexivity.
Defined.

(** ** Further properties of the depth projector *)

(** Inserting before a list whose head is not below the element puts the
    element in front. *)
Lemma insertBy_front x l :
  pointOk x -> Forall pointOk l -> HdRel pointLe x l ->
  insertBy byPrice x l = x :: l.
Proof.
  intros Hx Hl Hh. destruct l as [|y r]; [reflexivity|].
  cbn [insertBy]. inversion Hh as [|? ? Hxy]; subst.
  inversion Hl as [|? ? Hy Hr]; subst.
  destruct (JS.gtb (byPrice x y) JS.zero) eqn:E; [|reflexivity].
  apply byPrice_positive in E; [|assumption..].
  unfold pointLe, num_le, JS.leb, SFleb in Hxy. rewrite E in Hxy.
  discriminate Hxy.
Qed.

Lemma sortBy_sorted_input l :
  Forall pointOk l -> Sorted pointLe l -> sortBy byPrice l = l.
Proof.
  induction l as [|x r IH]; intros Hl Hs; [reflexivity|].
  inversion Hl as [|? ? Hx Hr]; subst. inversion Hs as [|? ? Hsr Hh]; subst.
  cbn [sortBy fold_right]. fold (sortBy byPrice r). rewrite IH by assumption.
  now apply insertBy_front.
Qed.

Lemma sorted_points pts :
  Sorted num_le (map point_price pts) -> Sorted pointLe pts.
Proof.
  induction pts as [|a r IH]; intros Hs; [constructor|].
  cbn [map] in Hs. apply Sorted_inv in Hs. destruct Hs as [Hsr Hh].
  constructor; [now apply IH|].
  destruct r as [|b r']; constructor.
  cbn [map] in Hh. now apply HdRel_inv in Hh.
Qed.

(** X11: when the prices of a book are doubles other than [NaN] and ascend
    from the lowest bid through the best bid and the best ask to the highest
    ask (bids stored best first, asks stored best first, no bid above the
    best ask), the sort leaves the points as they are put together: the bid
    points in reverse order, then the ask points. *)
Theorem depth_of_ordered_book book :
  Forall (fun l => priceOk l = true) (bids book) ->
  Forall (fun l => priceOk l = true) (asks book) ->
  Sorted num_le (map price (rev (bids book) ++ asks book)%list) ->
  generateDepthChartData book
  = (rev (map bidPoint (bids book)) ++ map askPoint (asks book))%list.
Proof.
  intros Hb Ha Hs. unfold generateDepthChartData.
  apply sortBy_sorted_input; [now apply depth_points_ok|].
  apply sorted_points.
  replace (map point_price
             (rev (map bidPoint (bids book)) ++ map askPoint (asks book))%list)
    with (map price (rev (bids book) ++ asks book)%list); [exact Hs|].
  rewrite <- map_rev, !map_app, !map_map. reflexivity.
Qed.

Lemma depth_of_ordered_book_witness :
  generateDepthChartData
    (mkBook [levelOf 100 5 5; levelOf 99 2 7]
            [levelOf 101 1 1; levelOf 102 3 4] (TsString "0"))
  = [bidPoint (levelOf 99 2 7); bidPoint (levelOf 100 5 5);
     askPoint (levelOf 101 1 1); askPoint (levelOf 102 3 4)].
Proof.
  apply (depth_of_ordered_book
           (mkBook [levelOf 100 5 5; levelOf 99 2 7]
                   [levelOf 101 1 1; levelOf 102 3 4] (TsString "0")));
    repeat constructor.
Defined.

(** X12: no point of the projection carries depth on both sides: each has
    [bidTotal] 0 or [askTotal] 0; and a book without levels projects to no
    point. *)
Theorem depth_points_one_sided :
  (forall book,
      Forall (fun p => bidTotal p = JS.zero \/ askTotal p = JS.zero)
             (generateDepthChartData book))
  /\ (forall ts, generateDepthChartData (mkBook [] [] ts) = []).
Proof.
  split; [|reflexivity]. intros book. unfold generateDepthChartData.
  eapply Permutation_Forall; [symmetry; apply sortBy_perm|].
  apply Forall_app. split.
  - apply Forall_rev, Forall_map, Forall_forall. intros l _. now right.
  - apply Forall_map, Forall_forall. intros l _. now left.
Qed.

(** ** Properties of the update throttling *)

(** X13: whatever the arrival times, two messages that get processed are at
    least [UPDATE_THROTTLE] = 100 ms apart, and the first one processed comes
    at least 100 ms after the value the shared reference started with; a
    message arriving 100 ms or more after that value is processed. *)
Theorem processed_messages_spaced lastUpdateTime arrivals :
  Sorted (fun a b => UPDATE_THROTTLE <= b - a)%Z
         (lastUpdateTime :: processedAt lastUpdateTime arrivals)
  /\ (forall now later,
      (UPDATE_THROTTLE <= now - lastUpdateTime)%Z ->
      processedAt lastUpdateTime (now :: later) = now :: processedAt now later).
Proof.
  split.
  - revert lastUpdateTime.
    induction arrivals as [|now later IH]; intros lastUpdateTime.
    + repeat constructor.
    + cbn [processedAt]. unfold messageGate.
      destruct (Z.ltb_spec (now - lastUpdateTime) UPDATE_THROTTLE) as [Hlt | Hge].
      * apply IH.
      * specialize (IH now). constructor; [exact IH|]. now constructor.
  - intros now later H. cbn [processedAt]. unfold messageGate.
    destruct (Z.ltb_spec (now - lastUpdateTime) UPDATE_THROTTLE); [lia|].
    reflexivity.
Qed.

Lemma processed_messages_spaced_witness :
  processedAt 0 [1000; 1040; 1099; 1100; 1150; 1205]%Z = [1000; 1100; 1205]%Z.
Proof.
  rewrite (proj2 (processed_messages_spaced 0 []) 1000
             [1040; 1099; 1100; 1150; 1205])%Z by (vm_compute; discriminate).
  reflexivity.
Defined.

Module ThrottleFacts.
Import Throttle.
Local Open Scope Z_scope.

Lemma run_spaced {Args : Type} (limit : Z) (evs : list (Event Args)) :
  forall st,
    Forall (fun ev => 0 < time ev) evs ->
    match lastRan st with Some t => 0 < t | None => True end ->
    Sorted (spaced limit) (map fst (snd (run limit st evs)))
    /\ match lastRan st with
       | Some t => HdRel (spaced limit) t (map fst (snd (run limit st evs)))
       | None => True
       end.
Proof.
  induction evs as [|ev rest IH]; intros st Hpos Hst.
  - cbn. split; [constructor | destruct (lastRan st); constructor].
  - inversion Hpos as [|? ? Hev Hrest]; subst.
    cbn [run].
    destruct (step limit st ev) as [st1 out1] eqn:Es.
    destruct (run limit st1 rest) as [st2 out2] eqn:Er.
    cbn [snd]. specialize (IH st1 Hrest). rewrite Er in IH. cbn [snd] in IH.
    destruct ev as [now args | now]; cbn [step time] in Es, Hev.
    + destruct (lastRan st) as [ran|] eqn:El.
      * destruct (Z.eqb_spec ran 0) as [E0 | N0]; [lia|].
        injection Es as <- <-. cbn [lastRan app] in *. now apply IH.
      * injection Es as <- <-. cbn [lastRan app map fst] in *.
        destruct (IH Hev) as [Hs Hh]. split; [now constructor | exact I].
    + destruct (lastFunc st) as [[due args]|] eqn:Ef.
      * destruct (now <? due).
        -- injection Es as <- <-. cbn [app]. now apply IH.
        -- destruct (lastRan st) as [ran|] eqn:El.
           ++ destruct (Z.geb_spec (now - ran) limit) as [Hge | Hlt].
              ** injection Es as <- <-. cbn [lastRan app map fst] in *.
                 destruct (IH Hev) as [Hs Hh].
                 split; [now constructor|]. constructor. unfold spaced. lia.
              ** injection Es as <- <-. cbn [lastRan app] in *.
                 now apply IH.
           ++ injection Es as <- <-. cbn [lastRan app] in *.
              split; [now apply IH | exact I].
      * injection Es as <- <-. cbn [app]. now apply IH.
Qed.

End ThrottleFacts.

(** X14: a function wrapped by [throttle(func, limit)] is never invoked twice
    within [limit] ms: over any sequence of calls and timer expiries, taken
    at positive clock values, consecutive invocations are at least [limit]
    apart. *)
Theorem throttle_invocations_spaced {Args : Type} (limit : Z)
  (evs : list (Throttle.Event Args)) :
  Forall (fun ev => (0 < Throttle.time ev)%Z) evs ->
  Sorted (Throttle.spaced limit)
         (map fst (snd (Throttle.run limit Throttle.initial evs))).
Proof.
  intros Hpos.
  now apply (ThrottleFacts.run_spaced limit evs Throttle.initial Hpos).
Qed.

Lemma throttle_invocations_spaced_witness :
  Sorted (Throttle.spaced 100)
         (map fst (snd (Throttle.run 100 Throttle.initial
                          [Throttle.Call 1000 "a"; Throttle.Call 1030 "b";
                           Throttle.Call 1060 "c"; Throttle.Expire 1100;
                           Throttle.Call 1150 "d"; Throttle.Expire 1200]%Z))).
Proof.
  apply throttle_invocations_spaced.
  repeat constructor.
Defined.

(** X15: the first call of a throttled function is passed on at once.  A call
    made after that is deferred, and a later call made before the timer
    expires replaces it: when the timer expires on time, [limit] ms or more
    after the last invocation, the function is invoked once, with the
    arguments of the latest call. *)
Theorem throttle_latest_call_wins {Args : Type} (limit : Z) :
  (forall now (args : Args),
      now <> 0%Z ->
      Throttle.step limit Throttle.initial (Throttle.Call now args)
      = (Throttle.mkState (Some now) None, [(now, args)]))
  /\ (forall ran pending c1 (a1 : Args) c2 a2 now,
      ran <> 0%Z -> (ran + limit <= now)%Z ->
      snd (Throttle.run limit (Throttle.mkState (Some ran) pending)
             [Throttle.Call c1 a1; Throttle.Call c2 a2; Throttle.Expire now])
      = [(now, a2)]).
Proof.
  split; [reflexivity|].
  intros ran pending c1 a1 c2 a2 now Hran Hnow.
  cbn [Throttle.run Throttle.step Throttle.lastRan Throttle.lastFunc].
  destruct (Z.eqb_spec ran 0) as [E | _]; [contradiction|].
  cbn [Throttle.lastRan Throttle.lastFunc].
  destruct (Z.eqb_spec ran 0) as [E | _]; [contradiction|].
  cbn [Throttle.lastRan Throttle.lastFunc].
  destruct (Z.ltb_spec now (c2 + (limit - (c2 - ran)))%Z) as [Hlt | _]; [lia|].
  destruct (Z.geb_spec (now - ran) limit) as [_ | Hlt]; [reflexivity | lia].
Qed.

Lemma throttle_latest_call_wins_witness :
  snd (Throttle.run 100 (Throttle.mkState (Some 1000%Z) None)
         [Throttle.Call 1030 "b"; Throttle.Call 1060 "c";
          Throttle.Expire 1100]%Z)
  = [(1100%Z, "c")].
Proof.
  apply (proj2 (throttle_latest_call_wins 100)); [discriminate | lia].
Defined.

(** ** Properties of the order form *)

Lemma form_symbol_kept changes : forall form,
  Forall (fun c => forall s, c <> SetSymbol s) changes ->
  form_symbol form = DEFAULT_SYMBOLS (form_venue form) ->
  let final := fold_left handleOrderFormChange changes form in
  form_symbol final = DEFAULT_SYMBOLS (form_venue final).
Proof.
  induction changes as [|c rest IH]; intros form Hall Hc; [exact Hc|].
  inversion Hall as [|? ? Hn Hrest]; subst. cbn [fold_left].
  apply IH; [exact Hrest|].
  destruct c; cbn [handleOrderFormChange form_symbol form_venue];
    try exact Hc; try reflexivity.
  exfalso. now apply (Hn value).
Qed.

(** X16: the symbol of the form follows the venue: starting from the initial
    form, as long as the symbol field itself is not edited, the symbol is the
    default symbol of the venue selected; and from any form, a change of
    venue overwrites whatever symbol had been typed, and the symbol stays
    that venue's default until the symbol field is edited. *)
Theorem form_symbol_follows_venue :
  (forall changes,
      Forall (fun c => forall s, c <> SetSymbol s) changes ->
      let final := fold_left handleOrderFormChange changes initialOrderForm in
      form_symbol final = DEFAULT_SYMBOLS (form_venue final))
  /\ (forall form before v after,
      Forall (fun c => forall s, c <> SetSymbol s) after ->
      let final := fold_left handleOrderFormChange
                     (before ++ SetVenue v :: after)%list form in
      form_symbol final = DEFAULT_SYMBOLS (form_venue final)).
Proof.
  split.
  - intros changes Hall. now apply form_symbol_kept.
  - intros form before v after Hall. rewrite fold_left_app. cbn [fold_left].
    now apply form_symbol_kept.
Qed.

Lemma form_symbol_follows_venue_witness :
  form_symbol
    (fold_left handleOrderFormChange
       [SetSymbol "ETH-USDT"; SetQuantity "2"; SetVenue deribit;
        SetOrderType "market"]
       initialOrderForm)
  = "BTC-PERPETUAL".
Proof.
  apply (proj2 form_symbol_follows_venue initialOrderForm
           [SetSymbol "ETH-USDT"; SetQuantity "2"] deribit
           [SetOrderType "market"]).
  repeat constructor; discriminate.
Defined.

Lemma form_price_kept changes : forall form,
  Forall (fun c => forall s, c <> SetPrice s) changes ->
  form_price (fold_left handleOrderFormChange changes form) = form_price form.
Proof.
  induction changes as [|c rest IH]; intros form Hall; [reflexivity|].
  inversion Hall as [|? ? Hn Hrest]; subst. cbn [fold_left].
  rewrite IH by exact Hrest.
  destruct c; try reflexivity. exfalso. now apply (Hn value).
Qed.

(** X17: starting from the initial form, as long as the price field has not
    been edited, simulating an order sets the metrics to no result, whatever
    the book of the venue and whatever else has been entered, a market
    order with a quantity included. *)
Theorem simulate_without_price changes book orderMetrics :
  Forall (fun c => forall s, c <> SetPrice s) changes ->
  simulateOrder (Some book)
    (fold_left handleOrderFormChange changes initialOrderForm) orderMetrics
  = None.
Proof.
  intros Hall. cbn [simulateOrder]. unfold calculateOrderMetrics, formOrder.
  cbn [order_price]. now rewrite form_price_kept.
Qed.

Lemma simulate_without_price_witness :
  simulateOrder
    (Some (mkBook [] [levelOf 100 10 10; levelOf 101 10 20] (TsString "0")))
    (fold_left handleOrderFormChange
       [SetOrderType "market"; SetQuantity "15"] initialOrderForm)
    None
  = None.
Proof.
  apply simulate_without_price. repeat constructor; discriminate.
Defined.
